(** * Command relay and player-state store (src/main.py)

    A shallow embedding of the FastAPI application in [src/main.py]: the
    pydantic models with their validation and [.dict()] conversion, the two
    module-level stores ([command_queue], [player_data]) and every route
    handler as a function from the state before the request to a response and
    the state after it. *)

From Stdlib Require Import ZArith.
From Stdlib Require Import Floats.SpecFloat.
From stdpp Require Import base option list strings gmap pretty.

Local Open Scope Z_scope.
Local Open Scope string_scope.
Local Open Scope list_scope.

(** ** Python values

    What [json.loads] produces and what the handlers store and return.  A
    Python [float] is an IEEE binary64 number; a [dict] keeps its keys in
    insertion order, so the dictionaries built by [.dict()] and by the dict
    displays of the handlers are association lists in field order. *)

#[warnings="-register-all"]
Inductive pyval : Type :=
  | PNone
  | PBool (b : bool)
  | PInt (n : Z)
  | PFloat (f : spec_float)
  | PStr (s : string)
  | PList (l : list pyval)
  | PDict (kv : list (string * pyval)).

Definition pydict : Type := list (string * pyval).

(** [d.get(k)] on an insertion-ordered dictionary. *)
Fixpoint dict_get {A : Type} (k : string) (d : list (string * A)) : option A :=
  match d with
  | [] => None
  | (k', v) :: d' => if String.eqb k k' then Some v else dict_get k d'
  end.

(** [float(n)] for a Python [int]: round to nearest even in binary64;
    Python raises [OverflowError] when the result is not finite, and the
    handler is then not run. *)
Definition float_of_int (n : Z) : option spec_float :=
  match binary_normalize 53 1024 n 0 false with
  | S754_infinity _ => None
  | S754_nan => None
  | f => Some f
  end.

(** The float literals [0.0] and [100.0] of the model defaults. *)
Definition float_0 : spec_float := S754_zero false.
Definition float_100 : spec_float :=
  Eval vm_compute in binary_normalize 53 1024 100 0 false.

(** ** Field validation

    A pydantic model is validated field by field against the parsed request
    body; [None] stands for the library's [ValidationError].  What the
    library does with a value that does not have the declared type (a
    numeric string for an [int], a number for a [str], a list of pairs for
    a mapping) depends on its version, which the repository does not pin.
    The validators of the scalar and container types are therefore an
    interface.  All that is assumed of them is that a value of the declared
    JSON type is accepted as it is, and that [null] is accepted by none of
    them.  Keys that are not fields of the model are ignored. *)

Class Pydantic : Type := {
  as_str : pyval -> option string;
  as_int : pyval -> option Z;
  as_float : pyval -> option spec_float;
  as_bool : pyval -> option bool;
  as_sequence : pyval -> option (list pyval);
  as_mapping : pyval -> option pydict;
  as_str_PStr : forall s, as_str (PStr s) = Some s;
  as_int_PInt : forall n, as_int (PInt n) = Some n;
  as_float_PFloat : forall f, as_float (PFloat f) = Some f;
  as_bool_PBool : forall b, as_bool (PBool b) = Some b;
  as_sequence_PList : forall l, as_sequence (PList l) = Some l;
  as_mapping_PDict : forall kv, as_mapping (PDict kv) = Some kv;
  as_str_PNone : as_str PNone = None;
  as_int_PNone : as_int PNone = None;
  as_float_PNone : as_float PNone = None;
  as_bool_PNone : as_bool PNone = None;
  as_sequence_PNone : as_sequence PNone = None;
  as_mapping_PNone : as_mapping PNone = None }.

(** [List[T]]: a sequence whose elements validate as [T]. *)
Definition as_list `{Pydantic} {A : Type} (elem : pyval -> option A)
    (v : pyval) : option (list A) :=
  as_sequence v ≫= mapM elem.

(** [Dict[str, Any]]: a mapping, values kept as they are. *)
Definition as_dict_any `{Pydantic} (v : pyval) : option pydict :=
  as_mapping v.

(** A nested model: a mapping whose fields validate. *)
Definition as_model `{Pydantic} {A : Type} (parse : pydict -> option A)
    (v : pyval) : option A :=
  as_mapping v ≫= parse.

(** The validators that accept the declared JSON type only, with the
    widening of an [int] to a [float] field (JSON has one number syntax):
    the library's behaviour on bodies whose values have the declared types.
    Closed examples are evaluated with them. *)
Definition exact_str (v : pyval) : option string :=
  match v with PStr s => Some s | _ => None end.

Definition exact_int (v : pyval) : option Z :=
  match v with PInt n => Some n | _ => None end.

Definition exact_float (v : pyval) : option spec_float :=
  match v with
  | PFloat f => Some f
  | PInt n => float_of_int n
  | _ => None
  end.

Definition exact_bool (v : pyval) : option bool :=
  match v with PBool b => Some b | _ => None end.

Definition exact_sequence (v : pyval) : option (list pyval) :=
  match v with PList l => Some l | _ => None end.

Definition exact_mapping (v : pyval) : option pydict :=
  match v with PDict kv => Some kv | _ => None end.

Definition exact_types : Pydantic :=
  {| as_str := exact_str; as_int := exact_int; as_float := exact_float;
     as_bool := exact_bool; as_sequence := exact_sequence;
     as_mapping := exact_mapping;
     as_str_PStr := fun _ => eq_refl; as_int_PInt := fun _ => eq_refl;
     as_float_PFloat := fun _ => eq_refl; as_bool_PBool := fun _ => eq_refl;
     as_sequence_PList := fun _ => eq_refl;
     as_mapping_PDict := fun _ => eq_refl;
     as_str_PNone := eq_refl; as_int_PNone := eq_refl;
     as_float_PNone := eq_refl; as_bool_PNone := eq_refl;
     as_sequence_PNone := eq_refl; as_mapping_PNone := eq_refl |}.

(** A field declared [f: T]: it must be present and not [null]. *)
Definition required {A : Type} (elem : pyval -> option A)
    (k : string) (d : pydict) : option A :=
  dict_get k d ≫= elem.

(** A field declared [f: Optional[T] = dflt]: the default when the key is
    missing, [None] for an explicit [null], the validated value otherwise. *)
Definition optional {A : Type} (elem : pyval -> option A) (dflt : option A)
    (k : string) (d : pydict) : option (option A) :=
  match dict_get k d with
  | None => Some dflt
  | Some PNone => Some None
  | Some v => Some <$> elem v
  end.

(** [.dict()] of an optional field. *)
Definition opt_dict {A : Type} (f : A -> pyval) (o : option A) : pyval :=
  match o with Some a => f a | None => PNone end.

Definition list_dict {A : Type} (f : A -> pyval) (l : list A) : pyval :=
  PList (f <$> l).

(** ** The models *)

Module CoordsInfo.
Record t : Type := mk { x : spec_float; y : spec_float; z : spec_float;
                        world : string }.

Definition parse `{Pydantic} (d : pydict) : option t :=
  x ← required as_float "x" d;
  y ← required as_float "y" d;
  z ← required as_float "z" d;
  world ← required as_str "world" d;
  Some (mk x y z world).

Definition dict (c : t) : pyval :=
  PDict [("x", PFloat (x c)); ("y", PFloat (y c)); ("z", PFloat (z c));
         ("world", PStr (world c))].
End CoordsInfo.

Module EnchantmentInfo.
Record t : Type := mk { type : string; level : Z }.

Definition parse `{Pydantic} (d : pydict) : option t :=
  type ← required as_str "type" d;
  level ← required as_int "level" d;
  Some (mk type level).

Definition dict (e : t) : pyval :=
  PDict [("type", PStr (type e)); ("level", PInt (level e))].
End EnchantmentInfo.

Module AttributeModifierInfo.
Record t : Type := mk { attribute : string; name : string;
                        amount : spec_float; operation : string;
                        slot : option string }.

Definition parse `{Pydantic} (d : pydict) : option t :=
  attribute ← required as_str "attribute" d;
  name ← required as_str "name" d;
  amount ← required as_float "amount" d;
  operation ← required as_str "operation" d;
  slot ← optional as_str None "slot" d;
  Some (mk attribute name amount operation slot).

Definition dict (a : t) : pyval :=
  PDict [("attribute", PStr (attribute a)); ("name", PStr (name a));
         ("amount", PFloat (amount a)); ("operation", PStr (operation a));
         ("slot", opt_dict PStr (slot a))].
End AttributeModifierInfo.

Module ItemInfo.
Record t : Type := mk {
  material : string;
  amount : Z;
  displayName : option string;
  damage : option Z;
  maxDurability : option Z;
  durabilityPercentage : option spec_float;
  enchantments : option (list EnchantmentInfo.t);
  lore : option (list string);
  customModelData : option Z;
  attributeModifiers : option (list AttributeModifierInfo.t);
  itemFlags : option (list string);
  nbtTags : option pydict }.

Definition parse `{Pydantic} (d : pydict) : option t :=
  material ← required as_str "material" d;
  amount ← required as_int "amount" d;
  displayName ← optional as_str (Some EmptyString) "displayName" d;
  damage ← optional as_int (Some 0) "damage" d;
  maxDurability ← optional as_int (Some 0) "maxDurability" d;
  durabilityPercentage ←
    optional as_float (Some float_100) "durabilityPercentage" d;
  enchantments ←
    optional (as_list (as_model EnchantmentInfo.parse)) (Some [])
      "enchantments" d;
  lore ← optional (as_list as_str) (Some []) "lore" d;
  customModelData ← optional as_int None "customModelData" d;
  attributeModifiers ←
    optional (as_list (as_model AttributeModifierInfo.parse)) (Some [])
      "attributeModifiers" d;
  itemFlags ← optional (as_list as_str) (Some []) "itemFlags" d;
  nbtTags ← optional as_dict_any (Some []) "nbtTags" d;
  Some (mk material amount displayName damage maxDurability
           durabilityPercentage enchantments lore customModelData
           attributeModifiers itemFlags nbtTags).

Definition dict (i : t) : pyval :=
  PDict [("material", PStr (material i));
         ("amount", PInt (amount i));
         ("displayName", opt_dict PStr (displayName i));
         ("damage", opt_dict PInt (damage i));
         ("maxDurability", opt_dict PInt (maxDurability i));
         ("durabilityPercentage", opt_dict PFloat (durabilityPercentage i));
         ("enchantments",
           opt_dict (list_dict EnchantmentInfo.dict) (enchantments i));
         ("lore", opt_dict (list_dict PStr) (lore i));
         ("customModelData", opt_dict PInt (customModelData i));
         ("attributeModifiers",
           opt_dict (list_dict AttributeModifierInfo.dict)
             (attributeModifiers i));
         ("itemFlags", opt_dict (list_dict PStr) (itemFlags i));
         ("nbtTags", opt_dict PDict (nbtTags i))].
End ItemInfo.

Module ArmorInfo.
Record t : Type := mk { helmet : option ItemInfo.t;
                        chestplate : option ItemInfo.t;
                        leggings : option ItemInfo.t;
                        boots : option ItemInfo.t }.

Definition parse `{Pydantic} (d : pydict) : option t :=
  helmet ← optional (as_model ItemInfo.parse) None "helmet" d;
  chestplate ← optional (as_model ItemInfo.parse) None "chestplate" d;
  leggings ← optional (as_model ItemInfo.parse) None "leggings" d;
  boots ← optional (as_model ItemInfo.parse) None "boots" d;
  Some (mk helmet chestplate leggings boots).

Definition dict (a : t) : pyval :=
  PDict [("helmet", opt_dict ItemInfo.dict (helmet a));
         ("chestplate", opt_dict ItemInfo.dict (chestplate a));
         ("leggings", opt_dict ItemInfo.dict (leggings a));
         ("boots", opt_dict ItemInfo.dict (boots a))].
End ArmorInfo.

Module PotionEffectInfo.
Record t : Type := mk {
  type : string;
  amplifier : Z;
  duration : Z;
  durationSeconds : spec_float;
  isAmbient : bool;
  hasParticles : bool;
  hasIcon : bool;
  source : option string }.

Definition parse `{Pydantic} (d : pydict) : option t :=
  type ← required as_str "type" d;
  amplifier ← required as_int "amplifier" d;
  duration ← required as_int "duration" d;
  durationSeconds ← required as_float "durationSeconds" d;
  isAmbient ← required as_bool "isAmbient" d;
  hasParticles ← required as_bool "hasParticles" d;
  hasIcon ← required as_bool "hasIcon" d;
  source ← optional as_str (Some "unknown") "source" d;
  Some (mk type amplifier duration durationSeconds isAmbient hasParticles
           hasIcon source).

Definition dict (e : t) : pyval :=
  PDict [("type", PStr (type e));
         ("amplifier", PInt (amplifier e));
         ("duration", PInt (duration e));
         ("durationSeconds", PFloat (durationSeconds e));
         ("isAmbient", PBool (isAmbient e));
         ("hasParticles", PBool (hasParticles e));
         ("hasIcon", PBool (hasIcon e));
         ("source", opt_dict PStr (source e))].
End PotionEffectInfo.

Module EntityInfo.
Record t : Type := mk { name : string; type : string; distance : spec_float;
                        location : CoordsInfo.t }.

Definition parse `{Pydantic} (d : pydict) : option t :=
  name ← required as_str "name" d;
  type ← required as_str "type" d;
  distance ← required as_float "distance" d;
  location ← required (as_model CoordsInfo.parse) "location" d;
  Some (mk name type distance location).

Definition dict (e : t) : pyval :=
  PDict [("name", PStr (name e)); ("type", PStr (type e));
         ("distance", PFloat (distance e));
         ("location", CoordsInfo.dict (location e))].
End EntityInfo.

Module StatusInfo.
Record t : Type := mk {
  health : spec_float;
  maxHealth : spec_float;
  absorption : option spec_float;
  foodLevel : Z;
  saturation : spec_float;
  exhaustion : spec_float;
  level : Z;
  exp : spec_float;
  totalExp : Z;
  gameMode : string;
  isOp : bool;
  isFlying : bool;
  allowFlight : bool;
  isSneaking : bool;
  isSprinting : bool;
  isSwimming : bool;
  isGliding : bool;
  isBlocking : bool;
  effects : list PotionEffectInfo.t }.

Definition parse `{Pydantic} (d : pydict) : option t :=
  health ← required as_float "health" d;
  maxHealth ← required as_float "maxHealth" d;
  absorption ← optional as_float (Some float_0) "absorption" d;
  foodLevel ← required as_int "foodLevel" d;
  saturation ← required as_float "saturation" d;
  exhaustion ← required as_float "exhaustion" d;
  level ← required as_int "level" d;
  exp ← required as_float "exp" d;
  totalExp ← required as_int "totalExp" d;
  gameMode ← required as_str "gameMode" d;
  isOp ← required as_bool "isOp" d;
  isFlying ← required as_bool "isFlying" d;
  allowFlight ← required as_bool "allowFlight" d;
  isSneaking ← required as_bool "isSneaking" d;
  isSprinting ← required as_bool "isSprinting" d;
  isSwimming ← required as_bool "isSwimming" d;
  isGliding ← required as_bool "isGliding" d;
  isBlocking ← required as_bool "isBlocking" d;
  effects ← required (as_list (as_model PotionEffectInfo.parse)) "effects" d;
  Some (mk health maxHealth absorption foodLevel saturation exhaustion level
           exp totalExp gameMode isOp isFlying allowFlight isSneaking
           isSprinting isSwimming isGliding isBlocking effects).

Definition dict (s : t) : pyval :=
  PDict [("health", PFloat (health s));
         ("maxHealth", PFloat (maxHealth s));
         ("absorption", opt_dict PFloat (absorption s));
         ("foodLevel", PInt (foodLevel s));
         ("saturation", PFloat (saturation s));
         ("exhaustion", PFloat (exhaustion s));
         ("level", PInt (level s));
         ("exp", PFloat (exp s));
         ("totalExp", PInt (totalExp s));
         ("gameMode", PStr (gameMode s));
         ("isOp", PBool (isOp s));
         ("isFlying", PBool (isFlying s));
         ("allowFlight", PBool (allowFlight s));
         ("isSneaking", PBool (isSneaking s));
         ("isSprinting", PBool (isSprinting s));
         ("isSwimming", PBool (isSwimming s));
         ("isGliding", PBool (isGliding s));
         ("isBlocking", PBool (isBlocking s));
         ("effects", list_dict PotionEffectInfo.dict (effects s))].
End StatusInfo.

Module WorldInfo.
Record t : Type := mk {
  name : string;
  weather : string;
  isRaining : bool;
  isThundering : bool;
  temperature : spec_float;
  humidity : spec_float;
  time : Z;
  timeOfDay : string }.

Definition parse `{Pydantic} (d : pydict) : option t :=
  name ← required as_str "name" d;
  weather ← required as_str "weather" d;
  isRaining ← required as_bool "isRaining" d;
  isThundering ← required as_bool "isThundering" d;
  temperature ← required as_float "temperature" d;
  humidity ← required as_float "humidity" d;
  time ← required as_int "time" d;
  timeOfDay ← required as_str "timeOfDay" d;
  Some (mk name weather isRaining isThundering temperature humidity time
           timeOfDay).

Definition dict (w : t) : pyval :=
  PDict [("name", PStr (name w));
         ("weather", PStr (weather w));
         ("isRaining", PBool (isRaining w));
         ("isThundering", PBool (isThundering w));
         ("temperature", PFloat (temperature w));
         ("humidity", PFloat (humidity w));
         ("time", PInt (time w));
         ("timeOfDay", PStr (timeOfDay w))].
End WorldInfo.

Module PlayerInfo.
Record t : Type := mk {
  name : string;
  coords : CoordsInfo.t;
  inventory : option (list ItemInfo.t);
  armor : option ArmorInfo.t;
  offhand : option ItemInfo.t;
  enderChest : option (list ItemInfo.t);
  status : option StatusInfo.t;
  world : option WorldInfo.t;
  nearbyEntities : option (list EntityInfo.t);
  currentAction : option string;
  heldItem : option ItemInfo.t }.

Definition parse `{Pydantic} (d : pydict) : option t :=
  name ← required as_str "name" d;
  coords ← required (as_model CoordsInfo.parse) "coords" d;
  inventory ←
    optional (as_list (as_model ItemInfo.parse)) (Some []) "inventory" d;
  armor ← optional (as_model ArmorInfo.parse) None "armor" d;
  offhand ← optional (as_model ItemInfo.parse) None "offhand" d;
  enderChest ←
    optional (as_list (as_model ItemInfo.parse)) (Some []) "enderChest" d;
  status ← optional (as_model StatusInfo.parse) None "status" d;
  world ← optional (as_model WorldInfo.parse) None "world" d;
  nearbyEntities ←
    optional (as_list (as_model EntityInfo.parse)) (Some [])
      "nearbyEntities" d;
  currentAction ← optional as_str (Some "idle") "currentAction" d;
  heldItem ← optional (as_model ItemInfo.parse) None "heldItem" d;
  Some (mk name coords inventory armor offhand enderChest status world
           nearbyEntities currentAction heldItem).

Definition dict (p : t) : pyval :=
  PDict [("name", PStr (name p));
         ("coords", CoordsInfo.dict (coords p));
         ("inventory", opt_dict (list_dict ItemInfo.dict) (inventory p));
         ("armor", opt_dict ArmorInfo.dict (armor p));
         ("offhand", opt_dict ItemInfo.dict (offhand p));
         ("enderChest", opt_dict (list_dict ItemInfo.dict) (enderChest p));
         ("status", opt_dict StatusInfo.dict (status p));
         ("world", opt_dict WorldInfo.dict (world p));
         ("nearbyEntities",
           opt_dict (list_dict EntityInfo.dict) (nearbyEntities p));
         ("currentAction", opt_dict PStr (currentAction p));
         ("heldItem", opt_dict ItemInfo.dict (heldItem p))].
End PlayerInfo.

Module Command.
Record t : Type := mk { player : option string; command : string;
                        args : list string }.

Definition parse `{Pydantic} (d : pydict) : option t :=
  player ← optional as_str None "player" d;
  command ← required as_str "command" d;
  args ← required (as_list as_str) "args" d;
  Some (mk player command args).

Definition dict (c : t) : pyval :=
  PDict [("player", opt_dict PStr (player c));
         ("command", PStr (command c));
         ("args", list_dict PStr (args c))].
End Command.

Module InventoryChange.
Record t : Type := mk { player : string; action : string; item : string }.

Definition parse `{Pydantic} (d : pydict) : option t :=
  player ← required as_str "player" d;
  action ← required as_str "action" d;
  item ← required as_str "item" d;
  Some (mk player action item).
End InventoryChange.

(** ** Application state

    The module-level [command_queue] and [player_data], and the lines written
    by [print].  [player_data_lock] is taken and released inside a handler
    that never awaits, so it is free whenever a handler starts and is not
    part of the state. *)

Record state : Type := mkState {
  command_queue : list pyval;
  player_data : gmap string pyval;
  stdout : list string }.

Definition initial_state : state := mkState [] ∅ [].

(** [command_queue.append(cmd)] *)
Definition append_command (cmd : pyval) (st : state) : state :=
  mkState (command_queue st ++ [cmd]) (player_data st) (stdout st).

(** What a route answers, before serialization: the value the handler
    returns with its status code, the live [player_data] mapping under the
    key ["players"], or the framework's rejection of a body that does not
    validate (the handler is not run). *)
Inductive response : Type :=
  | JSON (status_code : Z) (content : pyval)
  | Players (players : gmap string pyval)
  | RequestValidationError.

(** [s or dflt] for an optional string: [None] and the empty string are
    falsy. *)
Definition str_or (s : option string) (dflt : string) : string :=
  match s with
  | Some EmptyString => dflt
  | Some s' => s'
  | None => dflt
  end.

(** ** Handlers *)

(** POST /api/command *)
Definition receive_command (cmd : Command.t) (st : state) : response * state :=
  let line := "Received: /" +:+ Command.command cmd +:+ " "
              +:+ String.concat " " (Command.args cmd)
              +:+ " (Player: " +:+ str_or (Command.player cmd) "None" +:+ ")" in
  let st1 := mkState (command_queue st) (player_data st) (stdout st ++ [line]) in
  let st2 := append_command (Command.dict cmd) st1 in
  (JSON 200 (PDict [("status", PStr "ok"); ("queued", Command.dict cmd)]), st2).

(** GET /api/command *)
Definition get_next_command (st : state) : response * state :=
  match command_queue st with
  | head :: rest =>
      (JSON 200 (PDict [("command", head)]),
       mkState rest (player_data st) (stdout st))
  | [] => (JSON 200 (PDict [("command", PNone)]), st)
  end.

(** GET / *)
Definition keep_alive (st : state) : response * state :=
  (JSON 200 (PDict [("status", PStr "I'm alive!")]), st).

(** POST /api/coords *)
Definition update_player_info (info : PlayerInfo.t) (st : state)
  : response * state :=
  (JSON 200 (PDict [("status", PStr "updated")]),
   mkState (command_queue st)
           (<[PlayerInfo.name info := PlayerInfo.dict info]> (player_data st))
           (stdout st)).

(** GET /api/coords *)
Definition get_all_player_info (st : state) : response * state :=
  (Players (player_data st), st).

(** POST /api/coords/inventory *)
Definition change_inventory (change : InventoryChange.t) (st : state)
  : response * state :=
  if negb (bool_decide (InventoryChange.action change ∈ ["add"; "remove"]))
  then (JSON 400 (PDict [("error", PStr "Invalid action")]), st)
  else
    let cmd := PDict [("player", PStr (InventoryChange.player change));
                      ("command", PStr "inventory_edit");
                      ("args", PList [PStr (InventoryChange.action change);
                                      PStr (InventoryChange.item change)])] in
    (JSON 200 (PDict [("status", PStr "queued"); ("command", cmd)]),
     append_command cmd st).

(** The dict display [{"command": c, "args": [...]}] of the convenience
    routes: no ["player"] key at all. *)
Definition literal_cmd (c : string) (args : list string) : pyval :=
  PDict [("command", PStr c); ("args", PList (PStr <$> args))].

(** POST /api/sabotage/{player_name} *)
Definition sabotage_player (player_name : string) (st : state)
  : response * state :=
  let cmd := literal_cmd "attribute"
    [player_name; "minecraft:generic.attack_damage"; "base"; "set"; "0.5"] in
  (JSON 200 (PDict [("status", PStr "sabotaged");
                    ("player", PStr player_name)]),
   append_command cmd st).

(** POST /api/unsabotage/{player_name} *)
Definition unsabotage_player (player_name : string) (st : state)
  : response * state :=
  let cmd := literal_cmd "attribute"
    [player_name; "minecraft:generic.attack_damage"; "base"; "set"; "1.0"] in
  (JSON 200 (PDict [("status", PStr "unsabotaged");
                    ("player", PStr player_name)]),
   append_command cmd st).

(** The double-quote character inside the item strings of the kit. *)
Definition dq : string := String (Ascii.ascii_of_nat 34) EmptyString.

Definition armor_commands (player_name : string) : list pyval :=
  [
   literal_cmd "give"
     [player_name;
      "diamond_helmet{Enchantments:[{id:"
       +:+ dq +:+ "minecraft:protection"
       +:+ dq +:+ ",lvl:3},{id:"
       +:+ dq +:+ "minecraft:unbreaking"
       +:+ dq +:+ ",lvl:3},{id:"
       +:+ dq +:+ "minecraft:respiration"
       +:+ dq +:+ ",lvl:3},{id:"
       +:+ dq +:+ "minecraft:aqua_affinity"
       +:+ dq +:+ ",lvl:1}]}";
      "1"];
   literal_cmd "give"
     [player_name;
      "diamond_chestplate{Enchantments:[{id:"
       +:+ dq +:+ "minecraft:protection"
       +:+ dq +:+ ",lvl:3},{id:"
       +:+ dq +:+ "minecraft:unbreaking"
       +:+ dq +:+ ",lvl:3}]}";
      "1"];
   literal_cmd "give"
     [player_name;
      "diamond_leggings{Enchantments:[{id:"
       +:+ dq +:+ "minecraft:protection"
       +:+ dq +:+ ",lvl:3},{id:"
       +:+ dq +:+ "minecraft:unbreaking"
       +:+ dq +:+ ",lvl:3}]}";
      "1"];
   literal_cmd "give"
     [player_name;
      "diamond_boots{Enchantments:[{id:"
       +:+ dq +:+ "minecraft:protection"
       +:+ dq +:+ ",lvl:3},{id:"
       +:+ dq +:+ "minecraft:unbreaking"
       +:+ dq +:+ ",lvl:3},{id:"
       +:+ dq +:+ "minecraft:feather_falling"
       +:+ dq +:+ ",lvl:4},{id:"
       +:+ dq +:+ "minecraft:depth_strider"
       +:+ dq +:+ ",lvl:3}]}";
      "1"];
   literal_cmd "give"
     [player_name;
      "bow{Enchantments:[{id:"
       +:+ dq +:+ "minecraft:power"
       +:+ dq +:+ ",lvl:5},{id:"
       +:+ dq +:+ "minecraft:punch"
       +:+ dq +:+ ",lvl:2},{id:"
       +:+ dq +:+ "minecraft:flame"
       +:+ dq +:+ ",lvl:1},{id:"
       +:+ dq +:+ "minecraft:infinity"
       +:+ dq +:+ ",lvl:1},{id:"
       +:+ dq +:+ "minecraft:unbreaking"
       +:+ dq +:+ ",lvl:3}]}";
      "1"];
   literal_cmd "give"
     [player_name;
      "crossbow{Enchantments:[{id:"
       +:+ dq +:+ "minecraft:quick_charge"
       +:+ dq +:+ ",lvl:3},{id:"
       +:+ dq +:+ "minecraft:multishot"
       +:+ dq +:+ ",lvl:1},{id:"
       +:+ dq +:+ "minecraft:piercing"
       +:+ dq +:+ ",lvl:4},{id:"
       +:+ dq +:+ "minecraft:unbreaking"
       +:+ dq +:+ ",lvl:3}]}";
      "1"];
   literal_cmd "give"
     [player_name;
      "diamond_pickaxe{Enchantments:[{id:"
       +:+ dq +:+ "minecraft:efficiency"
       +:+ dq +:+ ",lvl:5},{id:"
       +:+ dq +:+ "minecraft:unbreaking"
       +:+ dq +:+ ",lvl:3},{id:"
       +:+ dq +:+ "minecraft:fortune"
       +:+ dq +:+ ",lvl:3}]}";
      "1"];
   literal_cmd "give"
     [player_name;
      "diamond_axe{Enchantments:[{id:"
       +:+ dq +:+ "minecraft:efficiency"
       +:+ dq +:+ ",lvl:5},{id:"
       +:+ dq +:+ "minecraft:unbreaking"
       +:+ dq +:+ ",lvl:3},{id:"
       +:+ dq +:+ "minecraft:fortune"
       +:+ dq +:+ ",lvl:3}]}";
      "1"];
   literal_cmd "give"
     [player_name;
      "diamond_shovel{Enchantments:[{id:"
       +:+ dq +:+ "minecraft:efficiency"
       +:+ dq +:+ ",lvl:5},{id:"
       +:+ dq +:+ "minecraft:unbreaking"
       +:+ dq +:+ ",lvl:3},{id:"
       +:+ dq +:+ "minecraft:fortune"
       +:+ dq +:+ ",lvl:3}]}";
      "1"];
   literal_cmd "give"
     [player_name;
      "diamond_hoe{Enchantments:[{id:"
       +:+ dq +:+ "minecraft:efficiency"
       +:+ dq +:+ ",lvl:5},{id:"
       +:+ dq +:+ "minecraft:unbreaking"
       +:+ dq +:+ ",lvl:3},{id:"
       +:+ dq +:+ "minecraft:fortune"
       +:+ dq +:+ ",lvl:3}]}";
      "1"];
   literal_cmd "give"
     [player_name;
      "trident{Enchantments:[{id:"
       +:+ dq +:+ "minecraft:riptide"
       +:+ dq +:+ ",lvl:3},{id:"
       +:+ dq +:+ "minecraft:mending"
       +:+ dq +:+ ",lvl:1},{id:"
       +:+ dq +:+ "minecraft:unbreaking"
       +:+ dq +:+ ",lvl:3}]}";
      "1"];
   literal_cmd "give"
     [player_name;
      "enchanted_golden_apple";
      "4"];
   literal_cmd "give"
     [player_name;
      "wind_charge";
      "64"];
   literal_cmd "give"
     [player_name;
      "wind_charge";
      "64"];
   literal_cmd "give"
     [player_name;
      "arrow";
      "64"]
  ].

(** POST /api/regear/{player_name}: [for cmd in armor_commands:
    command_queue.append(cmd)] *)
Definition regear_player (player_name : string) (st : state)
  : response * state :=
  (JSON 200 (PDict [("status", PStr "regeared");
                    ("player", PStr player_name);
                    ("items_given",
                      PInt (Z.of_nat (length (armor_commands player_name))))]),
   foldl (fun s cmd => append_command cmd s) st (armor_commands player_name)).

(** [str.upper()] and [str.lower()] are the interpreter's (Unicode case
    mapping); the handlers only pass their result on, so they are taken as
    an interface. *)
Class PyStr : Type := {
  str_upper : string -> string;
  str_lower : string -> string }.

(** POST /api/flame/setabilitydamage/{player_name}/{flame_type}/{damage} *)
Definition set_player_ability_damage `{PyStr}
    (player_name flame_type : string) (damage : Z) (st : state)
  : response * state :=
  let cmd := literal_cmd "setabilitydamage"
    [player_name; str_upper flame_type; pretty damage] in
  (JSON 200 (PDict [("status", PStr "ability_damage_set");
                    ("player", PStr player_name);
                    ("flame", PStr flame_type);
                    ("damage", PInt damage)]),
   append_command cmd st).

(** POST /api/flame/setabilityduration/{player_name}/{flame_type}/{duration} *)
Definition set_player_ability_duration `{PyStr}
    (player_name flame_type : string) (duration : Z) (st : state)
  : response * state :=
  let cmd := literal_cmd "setabilityduration"
    [player_name; str_upper flame_type; pretty duration] in
  (JSON 200 (PDict [("status", PStr "ability_duration_set");
                    ("player", PStr player_name);
                    ("flame", PStr flame_type);
                    ("duration", PInt duration)]),
   append_command cmd st).

(** POST /api/flame/set/{player_name}/{flame_type} *)
Definition set_player_flame `{PyStr} (player_name flame_type : string)
    (st : state) : response * state :=
  let cmd := literal_cmd "flame" ["set"; player_name; str_upper flame_type] in
  (JSON 200 (PDict [("status", PStr "flame_set");
                    ("player", PStr player_name);
                    ("flame", PStr flame_type)]),
   append_command cmd st).

(** POST /api/flame/upgrade/{player_name} *)
Definition upgrade_player_flame (player_name : string) (st : state)
  : response * state :=
  let cmd := literal_cmd "flame" ["upgrade"; player_name] in
  (JSON 200 (PDict [("status", PStr "flame_upgraded");
                    ("player", PStr player_name)]),
   append_command cmd st).

(** POST /api/flame/downgrade/{player_name} *)
Definition downgrade_player_flame (player_name : string) (st : state)
  : response * state :=
  let cmd := literal_cmd "flame" ["unupgrade"; player_name] in
  (JSON 200 (PDict [("status", PStr "flame_downgraded");
                    ("player", PStr player_name)]),
   append_command cmd st).

(** POST /api/flame/give/{player_name}/{item_type} *)
Definition give_flame_item `{PyStr} (player_name item_type : string)
    (st : state) : response * state :=
  let cmd := literal_cmd "flame" ["give"; player_name; str_lower item_type] in
  (JSON 200 (PDict [("status", PStr "item_given");
                    ("player", PStr player_name);
                    ("item", PStr item_type)]),
   append_command cmd st).

(** ** Routing

    A request is a route with its path parameters already converted to the
    annotated types and, for the three routes that take a model, the parsed
    JSON body.  The framework validates the body against the model before
    it calls the handler; a body that does not validate is answered without
    running the handler. *)

Inductive request : Type :=
  | POST_api_command (body : pyval)
  | GET_api_command
  | GET_root
  | POST_api_coords (body : pyval)
  | GET_api_coords
  | POST_api_coords_inventory (body : pyval)
  | POST_api_sabotage (player_name : string)
  | POST_api_unsabotage (player_name : string)
  | POST_api_regear (player_name : string)
  | POST_api_flame_setabilitydamage (player_name flame_type : string)
      (damage : Z)
  | POST_api_flame_setabilityduration (player_name flame_type : string)
      (duration : Z)
  | POST_api_flame_set (player_name flame_type : string)
  | POST_api_flame_upgrade (player_name : string)
  | POST_api_flame_downgrade (player_name : string)
  | POST_api_flame_give (player_name item_type : string).

Definition with_body `{Pydantic} {A : Type} (parse : pydict -> option A)
    (handler : A -> state -> response * state) (body : pyval) (st : state)
  : response * state :=
  match as_model parse body with
  | Some m => handler m st
  | None => (RequestValidationError, st)
  end.

(** The three routes with a body, as the framework serves them. *)
Definition post_api_command `{Pydantic}
  : pyval -> state -> response * state :=
  with_body Command.parse receive_command.
Definition post_api_coords `{Pydantic}
  : pyval -> state -> response * state :=
  with_body PlayerInfo.parse update_player_info.
Definition post_api_coords_inventory `{Pydantic}
  : pyval -> state -> response * state :=
  with_body InventoryChange.parse change_inventory.

Definition handle `{PyStr} `{Pydantic} (req : request) (st : state)
  : response * state :=
  match req with
  | POST_api_command body => post_api_command body st
  | GET_api_command => get_next_command st
  | GET_root => keep_alive st
  | POST_api_coords body => post_api_coords body st
  | GET_api_coords => get_all_player_info st
  | POST_api_coords_inventory body => post_api_coords_inventory body st
  | POST_api_sabotage p => sabotage_player p st
  | POST_api_unsabotage p => unsabotage_player p st
  | POST_api_regear p => regear_player p st
  | POST_api_flame_setabilitydamage p f d => set_player_ability_damage p f d st
  | POST_api_flame_setabilityduration p f d =>
      set_player_ability_duration p f d st
  | POST_api_flame_set p f => set_player_flame p f st
  | POST_api_flame_upgrade p => upgrade_player_flame p st
  | POST_api_flame_downgrade p => downgrade_player_flame p st
  | POST_api_flame_give p i => give_flame_item p i st
  end.

(** The state after serving a list of requests one after the other. *)
Definition run `{PyStr} `{Pydantic} (reqs : list request) (st : state)
  : state :=
  foldl (fun s req => snd (handle req s)) st reqs.

Definition reachable `{PyStr} `{Pydantic} (st : state) : Prop :=
  exists reqs, run reqs initial_state = st.

(** [n] polls in a row: the responses in order and the state left. *)
Fixpoint poll_n (n : nat) (st : state) : list response * state :=
  match n with
  | O => ([], st)
  | S n' =>
      let '(r, st') := get_next_command st in
      let '(rs, st'') := poll_n n' st' in
      (r :: rs, st'')
  end.

(** Several submissions in a row. *)
Definition submit_all (cmds : list Command.t) (st : state) : state :=
  foldl (fun s cmd => snd (receive_command cmd s)) st cmds.

(** What read-states reports for one key. *)
Definition read_snapshot (key : string) (st : state) : option pyval :=
  match fst (get_all_player_info st) with
  | Players m => m !! key
  | _ => None
  end.

(** [v.get(k)] on a stored dictionary. *)
Definition get_field (k : string) (v : pyval) : option pyval :=
  match v with PDict kv => dict_get k kv | _ => None end.

(** The two shapes of a poll response. *)
Definition delivered (cmd : pyval) : response :=
  JSON 200 (PDict [("command", cmd)]).
Definition none_response : response := delivered PNone.

Definition is_dict (v : pyval) : Prop :=
  match v with PDict _ => True | _ => False end.

(** Case mapping on the ASCII letters only, to evaluate the flame routes on
    concrete ASCII inputs. *)
Definition ascii_upper (c : Ascii.ascii) : Ascii.ascii :=
  let n := Ascii.nat_of_ascii c in
  if ((97 <=? n) && (n <=? 122))%nat then Ascii.ascii_of_nat (n - 32) else c.
Definition ascii_lower (c : Ascii.ascii) : Ascii.ascii :=
  let n := Ascii.nat_of_ascii c in
  if ((65 <=? n) && (n <=? 90))%nat then Ascii.ascii_of_nat (n + 32) else c.
Fixpoint map_chars (f : Ascii.ascii -> Ascii.ascii) (s : string) : string :=
  match s with
  | EmptyString => EmptyString
  | String c s' => String (f c) (map_chars f s')
  end.
Definition ascii_PyStr : PyStr :=
  {| str_upper := map_chars ascii_upper; str_lower := map_chars ascii_lower |}.

(** ** Sample inputs *)

Definition origin : CoordsInfo.t := CoordsInfo.mk float_0 float_0 float_0 "world".

Definition steve_idle : PlayerInfo.t :=
  PlayerInfo.mk "Steve" origin (Some []) None None (Some []) None None
    (Some []) (Some "idle") None.

Definition steve_mining : PlayerInfo.t :=
  PlayerInfo.mk "Steve" origin None (Some (ArmorInfo.mk None None None None))
    None (Some []) None None (Some []) (Some "mining") None.

Definition alex_idle : PlayerInfo.t :=
  PlayerInfo.mk "Alex" origin (Some []) None None (Some []) None None
    (Some []) (Some "idle") None.

Definition origin_body : pyval :=
  PDict [("x", PInt 0); ("y", PInt 0); ("z", PInt 0); ("world", PStr "world")].

(** A snapshot body with the two required fields only. *)
Definition steve_minimal_body : pydict :=
  [("name", PStr "Steve"); ("coords", origin_body)].

(** A snapshot body without coordinates. *)
Definition steve_no_coords_body : pydict :=
  [("name", PStr "Steve"); ("currentAction", PStr "mining")].

(** An item body with the two required fields only. *)
Definition stone_minimal_body : pydict :=
  [("material", PStr "stone"); ("amount", PInt 1)].

(** Closed examples are evaluated with the validators [exact_types] and the
    case mapping [ascii_PyStr]; every theorem takes its validators and its
    case mapping as parameters. *)
#[local] Existing Instance exact_types.

(** ** Predicates on the stores *)

(** A key that the body does not have, or has with [null]. *)
Definition missing_or_null (k : string) (d : pydict) : Prop :=
  dict_get k d = None \/ dict_get k d = Some PNone.


(** A queued value that validates against the [Command] model. *)
Definition valid_command `{Pydantic} (v : pyval) : Prop :=
  is_Some (as_model Command.parse v).

(** A queued value that validates to a command and shows that command's
    name and arguments under "command" and "args". *)
Definition well_formed_command `{Pydantic} (v : pyval) : Prop :=
  exists c,
    as_model Command.parse v = Some c
    /\ get_field "command" v = Some (PStr (Command.command c))
    /\ get_field "args" v = Some (list_dict PStr (Command.args c)).


(** Every entry of the store is the [.dict()] of a validated snapshot filed
    under its own name. *)
Definition store_wf (m : gmap string pyval) : Prop :=
  forall k snap, m !! k = Some snap ->
    exists info, snap = PlayerInfo.dict info /\ PlayerInfo.name info = k.

(** The field names of [PlayerInfo], in declaration order. *)
Definition PlayerInfo_fields : list string :=
  ["name"; "coords"; "inventory"; "armor"; "offhand"; "enderChest"; "status";
   "world"; "nearbyEntities"; "currentAction"; "heldItem"].

(** The optional fields of [PlayerInfo] and of [ItemInfo] with their
    declared defaults, as JSON values. *)
Definition PlayerInfo_defaults : list (string * pyval) :=
  [("inventory", PList []); ("armor", PNone); ("offhand", PNone);
   ("enderChest", PList []); ("status", PNone); ("world", PNone);
   ("nearbyEntities", PList []); ("currentAction", PStr "idle");
   ("heldItem", PNone)].

Definition ItemInfo_defaults : list (string * pyval) :=
  [("displayName", PStr EmptyString); ("damage", PInt 0);
   ("maxDurability", PInt 0); ("durabilityPercentage", PFloat float_100);
   ("enchantments", PList []); ("lore", PList []);
   ("customModelData", PNone); ("attributeModifiers", PList []);
   ("itemFlags", PList []); ("nbtTags", PDict [])].

(** A position inside a value: a key of a dictionary or an index of a
    list; [get_path] follows a list of them. *)
Inductive step : Type :=
  | Key (k : string)
  | Index (i : nat).

Fixpoint get_path (p : list step) (v : pyval) : option pyval :=
  match p with
  | [] => Some v
  | Key k :: p' =>
      match v with PDict kv => dict_get k kv ≫= get_path p' | _ => None end
  | Index i :: p' =>
      match v with PList l => l !! i ≫= get_path p' | _ => None end
  end.

(** The positions of a snapshot that hold an item. *)
Inductive item_position : list step -> Prop :=
  | pos_heldItem : item_position [Key "heldItem"]
  | pos_offhand : item_position [Key "offhand"]
  | pos_armor (slot : string) :
      slot ∈ ["helmet"; "chestplate"; "leggings"; "boots"] ->
      item_position [Key "armor"; Key slot]
  | pos_inventory (i : nat) : item_position [Key "inventory"; Index i]
  | pos_enderChest (i : nat) : item_position [Key "enderChest"; Index i].


(** Further sample inputs. *)
Definition steve_holding_body : pydict :=
  steve_minimal_body
  ++ [("heldItem", PDict stone_minimal_body);
      ("inventory", PList [PDict stone_minimal_body])].

Definition alex_body : pyval :=
  PDict [("name", PStr "Alex"); ("coords", origin_body)].

Definition steve_null_action_body : pydict :=
  steve_minimal_body ++ [("currentAction", PNone)].

(** Whether a request is a poll, and how many of a list are. *)
Definition is_poll (req : request) : bool :=
  match req with GET_api_command => true | _ => false end.

Definition polls (reqs : list request) : nat :=
  length (List.filter is_poll reqs).

(** ** Proof steps for validation

    [bind_inv] peels the successful binds off a validation that returned a
    model; [omitted] settles the stored value of an optional field whose key
    is not in the body. *)
Ltac bind_inv H :=
  repeat match type of H with
    | (?m ≫= _) = Some _ =>
        let E := fresh "E" in
        destruct m eqn:E; [cbn [mbind option_bind] in H | discriminate H]
    end.

Ltac omitted E Hk :=
  unfold optional in E; rewrite Hk in E; injection E as <-; reflexivity.

(** [rt_required] and [rt_optional] rewrite the validation of the next field
    of a dictionary that [.dict()] built, given the lemma for a field that is
    present. *)
Ltac rt_required hit :=
  match goal with
  | |- (required ?e ?k ?d ≫= _) = _ =>
      erewrite (hit _ e k d);
      [| reflexivity
       | first [apply as_str_PStr | apply as_int_PInt | apply as_float_PFloat
               | apply as_bool_PBool | reflexivity | eassumption]];
      cbn [mbind option_bind]
  end.

Ltac rt_required_by hit tac :=
  match goal with
  | |- (required ?e ?k ?d ≫= _) = _ =>
      erewrite (hit _ e k d); [| reflexivity | tac];
      cbn [mbind option_bind]
  end.

Ltac rt_optional hit tac :=
  match goal with
  | |- (optional ?e ?dflt ?k ?d ≫= _) = _ =>
      erewrite (hit _ e _ dflt k d);
      [| reflexivity | tac | intros ?; discriminate];
      cbn [mbind option_bind]
  end.

(** [with_field k tac] runs [tac] on the hypothesis left by [bind_inv] for
    the field [k]. *)
Ltac with_field k tac :=
  match goal with
  | H : optional _ _ k _ = Some _ |- _ => tac H
  | H : required _ k _ = Some _ |- _ => tac H
  end.

(** [default_case] compares the validation of a body that states a default
    with that of the body that omits the key. *)
Ltac default_case Hk :=
  cbn [dict_get String.eqb Ascii.eqb Bool.eqb andb];
  rewrite ?Hk;
  unfold as_list, as_dict_any;
  rewrite ?as_str_PStr, ?as_int_PInt, ?as_float_PFloat, ?as_sequence_PList,
    ?as_mapping_PDict;
  reflexivity.

(** [nulled] settles the stored value of an optional field sent as [null]. *)
Ltac nulled E Hk :=
  unfold optional in E; rewrite Hk in E; injection E as <-; reflexivity.

(** * Properties *)

(** ** The dispatch queue *)

Lemma append_command_queue cmd st :
  command_queue (append_command cmd st) = command_queue st ++ [cmd].
Proof. reflexivity. Qed.

Lemma append_command_player_data cmd st :
  player_data (append_command cmd st) = player_data st.
Proof. reflexivity. Qed.

Lemma receive_command_queue cmd st :
  command_queue (snd (receive_command cmd st))
  = command_queue st ++ [Command.dict cmd].
Proof. reflexivity. Qed.

Lemma submit_all_queue cmds : forall st,
  command_queue (submit_all cmds st)
  = command_queue st ++ (Command.dict <$> cmds).
Proof.
  induction cmds as [|c cmds IH]; intros st.
  - simpl. by rewrite app_nil_r.
  - change (submit_all (c :: cmds) st)
      with (submit_all cmds (snd (receive_command c st))).
    rewrite IH, receive_command_queue, fmap_cons.
    by rewrite <- app_assoc.
Qed.

(** [n] polls deliver the first [n] queued commands in queue order, answer
    "none" for every poll beyond the queue's length, and leave the rest of
    the queue in place. *)
Lemma poll_n_spec n : forall q pd out,
  poll_n n (mkState q pd out)
  = ((delivered <$> take n q) ++ replicate (n - length q) none_response,
     mkState (drop n q) pd out).
Proof.
  induction n as [|n IH]; intros q pd out.
  - by rewrite take_0, drop_0.
  - destruct q as [|c q]; simpl.
    + specialize (IH [] pd out). rewrite take_nil, drop_nil in IH.
      simpl in IH. rewrite Nat.sub_0_r in IH. by rewrite IH.
    + by rewrite IH.
Qed.

Lemma poll_n_drain q1 q2 pd out :
  poll_n (length q1) (mkState (q1 ++ q2) pd out)
  = (delivered <$> q1, mkState q2 pd out).
Proof.
  rewrite poll_n_spec. rewrite take_app_length, drop_app_length.
  rewrite length_app.
  replace (length q1 - (length q1 + length q2))%nat with 0%nat by lia.
  simpl. by rewrite app_nil_r.
Qed.

(** C1. FIFO order: after commands A, B, C are submitted in that order
    (whatever their targets, whatever was queued before and whatever is
    submitted after C), once the commands queued before A have been polled
    the next three polls return exactly A, B, C in that order. *)
Theorem fifo_order (A B C : Command.t) (later : list Command.t) (st : state) :
  let st' := submit_all ([A; B; C] ++ later) st in
  let drained := snd (poll_n (length (command_queue st)) st') in
  fst (poll_n 3 drained)
  = [delivered (Command.dict A); delivered (Command.dict B);
     delivered (Command.dict C)]
  /\ command_queue (snd (poll_n 3 drained)) = Command.dict <$> later.
Proof.
  intros st' drained. subst drained.
  pose proof (submit_all_queue ([A; B; C] ++ later) st) as Hq.
  fold st' in Hq. clearbody st'.
  destruct st' as [q pd out]. simpl in Hq. subst q.
  rewrite poll_n_drain. simpl. done.
Qed.

(** Every route that enqueues appends dictionaries only. *)
(** ** Validation of what [.dict()] built *)

Lemma required_hit {A : Type} (elem : pyval -> option A) (k : string)
    (d : pydict) (v : pyval) (a : A) :
  dict_get k d = Some v -> elem v = Some a -> required elem k d = Some a.
Proof. intros Hk Hv. unfold required. rewrite Hk. exact Hv. Qed.

Lemma optional_hit {A : Type} (elem : pyval -> option A) (dict : A -> pyval)
    (dflt : option A) (k : string) (d : pydict) (o : option A) :
  dict_get k d = Some (opt_dict dict o) ->
  (forall a, elem (dict a) = Some a) ->
  (forall a, dict a <> PNone) ->
  optional elem dflt k d = Some o.
Proof.
  intros Hk Helem Hnone. unfold optional. rewrite Hk.
  destruct o as [a|]; [|reflexivity]. simpl.
  specialize (Helem a). specialize (Hnone a).
  destruct (dict a); try (by rewrite Helem); by destruct Hnone.
Qed.

Lemma as_list_roundtrip `{Pydantic} {A : Type} (elem : pyval -> option A)
    (dict : A -> pyval) :
  (forall a, elem (dict a) = Some a) ->
  forall l, as_list elem (list_dict dict l) = Some l.
Proof.
  intros Helem l. unfold as_list, list_dict.
  rewrite as_sequence_PList. cbn [mbind option_bind].
  induction l as [|a l IH]; [reflexivity|].
  rewrite fmap_cons. cbn [mapM]. rewrite Helem. cbn. rewrite IH. reflexivity.
Qed.

Lemma as_dict_any_PDict `{Pydantic} kv : as_dict_any (PDict kv) = Some kv.
Proof. apply as_mapping_PDict. Qed.

Lemma as_model_PDict `{Pydantic} {A : Type} (parse : pydict -> option A) kv :
  as_model parse (PDict kv) = parse kv.
Proof. unfold as_model. by rewrite as_mapping_PDict. Qed.

Lemma as_model_PNone `{Pydantic} {A : Type} (parse : pydict -> option A) :
  as_model parse PNone = None.
Proof. unfold as_model. by rewrite as_mapping_PNone. Qed.

Lemma as_list_PNone `{Pydantic} {A : Type} (elem : pyval -> option A) :
  as_list elem PNone = None.
Proof. unfold as_list. by rewrite as_sequence_PNone. Qed.

Lemma CoordsInfo_roundtrip `{Pydantic} c :
  as_model CoordsInfo.parse (CoordsInfo.dict c) = Some c.
Proof.
  destruct c. unfold CoordsInfo.dict. rewrite as_model_PDict. unfold CoordsInfo.parse.
  repeat rt_required @required_hit. reflexivity.
Qed.

Lemma EnchantmentInfo_roundtrip `{Pydantic} e :
  as_model EnchantmentInfo.parse (EnchantmentInfo.dict e) = Some e.
Proof.
  destruct e. unfold EnchantmentInfo.dict. rewrite as_model_PDict. unfold EnchantmentInfo.parse.
  repeat rt_required @required_hit. reflexivity.
Qed.

Lemma AttributeModifierInfo_roundtrip `{Pydantic} m :
  as_model AttributeModifierInfo.parse (AttributeModifierInfo.dict m) = Some m.
Proof.
  destruct m.
  unfold AttributeModifierInfo.dict. rewrite as_model_PDict. unfold AttributeModifierInfo.parse.
  repeat rt_required @required_hit. rt_optional @optional_hit ltac:(exact as_str_PStr). reflexivity.
Qed.

Lemma ItemInfo_roundtrip `{Pydantic} i :
  as_model ItemInfo.parse (ItemInfo.dict i) = Some i.
Proof.
  destruct i. unfold ItemInfo.dict. rewrite as_model_PDict. unfold ItemInfo.parse.
  repeat rt_required @required_hit.
  rt_optional @optional_hit ltac:(exact as_str_PStr).
  rt_optional @optional_hit ltac:(exact as_int_PInt).
  rt_optional @optional_hit ltac:(exact as_int_PInt).
  rt_optional @optional_hit ltac:(exact as_float_PFloat).
  rt_optional @optional_hit
    ltac:(apply as_list_roundtrip; exact EnchantmentInfo_roundtrip).
  rt_optional @optional_hit ltac:(apply as_list_roundtrip; exact as_str_PStr).
  rt_optional @optional_hit ltac:(exact as_int_PInt).
  rt_optional @optional_hit
    ltac:(apply as_list_roundtrip; exact AttributeModifierInfo_roundtrip).
  rt_optional @optional_hit ltac:(apply as_list_roundtrip; exact as_str_PStr).
  rt_optional @optional_hit ltac:(exact as_dict_any_PDict).
  reflexivity.
Qed.

Lemma ArmorInfo_roundtrip `{Pydantic} a :
  as_model ArmorInfo.parse (ArmorInfo.dict a) = Some a.
Proof.
  destruct a. unfold ArmorInfo.dict. rewrite as_model_PDict. unfold ArmorInfo.parse.
  do 4 rt_optional @optional_hit ltac:(exact ItemInfo_roundtrip).
  reflexivity.
Qed.

Lemma PotionEffectInfo_roundtrip `{Pydantic} e :
  as_model PotionEffectInfo.parse (PotionEffectInfo.dict e) = Some e.
Proof.
  destruct e. unfold PotionEffectInfo.dict. rewrite as_model_PDict. unfold PotionEffectInfo.parse.
  repeat rt_required @required_hit.
  rt_optional @optional_hit ltac:(exact as_str_PStr). reflexivity.
Qed.

Lemma EntityInfo_roundtrip `{Pydantic} e :
  as_model EntityInfo.parse (EntityInfo.dict e) = Some e.
Proof.
  destruct e. unfold EntityInfo.dict. rewrite as_model_PDict. unfold EntityInfo.parse.
  do 3 rt_required @required_hit.
  rt_required_by @required_hit ltac:(apply CoordsInfo_roundtrip).
  reflexivity.
Qed.

Lemma StatusInfo_roundtrip `{Pydantic} s :
  as_model StatusInfo.parse (StatusInfo.dict s) = Some s.
Proof.
  destruct s. unfold StatusInfo.dict. rewrite as_model_PDict. unfold StatusInfo.parse.
  do 2 rt_required @required_hit.
  rt_optional @optional_hit ltac:(exact as_float_PFloat).
  do 15 rt_required @required_hit.
  rt_required_by @required_hit
    ltac:(apply as_list_roundtrip; exact PotionEffectInfo_roundtrip).
  reflexivity.
Qed.

Lemma WorldInfo_roundtrip `{Pydantic} w :
  as_model WorldInfo.parse (WorldInfo.dict w) = Some w.
Proof.
  destruct w. unfold WorldInfo.dict. rewrite as_model_PDict. unfold WorldInfo.parse.
  repeat rt_required @required_hit. reflexivity.
Qed.

Lemma PlayerInfo_roundtrip `{Pydantic} p :
  as_model PlayerInfo.parse (PlayerInfo.dict p) = Some p.
Proof.
  destruct p. unfold PlayerInfo.dict. rewrite as_model_PDict. unfold PlayerInfo.parse.
  rt_required @required_hit.
  rt_required_by @required_hit ltac:(apply CoordsInfo_roundtrip).
  rt_optional @optional_hit
    ltac:(apply as_list_roundtrip; exact ItemInfo_roundtrip).
  rt_optional @optional_hit ltac:(exact ArmorInfo_roundtrip).
  rt_optional @optional_hit ltac:(exact ItemInfo_roundtrip).
  rt_optional @optional_hit
    ltac:(apply as_list_roundtrip; exact ItemInfo_roundtrip).
  rt_optional @optional_hit ltac:(exact StatusInfo_roundtrip).
  rt_optional @optional_hit ltac:(exact WorldInfo_roundtrip).
  rt_optional @optional_hit
    ltac:(apply as_list_roundtrip; exact EntityInfo_roundtrip).
  rt_optional @optional_hit ltac:(exact as_str_PStr).
  rt_optional @optional_hit ltac:(exact ItemInfo_roundtrip).
  reflexivity.
Qed.

Lemma Command_roundtrip `{Pydantic} c :
  as_model Command.parse (Command.dict c) = Some c.
Proof.
  destruct c. unfold Command.dict. rewrite as_model_PDict. unfold Command.parse.
  rt_optional @optional_hit ltac:(exact as_str_PStr).
  rt_required @required_hit.
  rt_required_by @required_hit
    ltac:(apply as_list_roundtrip; exact as_str_PStr).
  reflexivity.
Qed.

Lemma foldl_append_command_queue cmds : forall st,
  command_queue (foldl (fun s cmd => append_command cmd s) st cmds)
  = command_queue st ++ cmds.
Proof.
  induction cmds as [|c cmds IH]; intros st; simpl.
  - by rewrite app_nil_r.
  - rewrite IH, append_command_queue. by rewrite <- app_assoc.
Qed.

Lemma armor_commands_dicts p : Forall is_dict (armor_commands p).
Proof. unfold armor_commands. repeat constructor. Qed.

Lemma Forall_is_dict_snoc q cmd :
  Forall is_dict q -> is_dict cmd -> Forall is_dict (q ++ [cmd]).
Proof. intros Hq Hc. apply Forall_app. split; [done | by constructor]. Qed.

Lemma handle_queue_dicts `{PyStr} `{Pydantic} req st :
  Forall is_dict (command_queue st) ->
  Forall is_dict (command_queue (snd (handle req st))).
Proof.
  intros Hq. destruct req; cbn [handle].
  - unfold post_api_command, with_body.
    destruct (as_model Command.parse body); [|done].
    apply Forall_is_dict_snoc; [done | exact I].
  - unfold get_next_command.
    destruct (command_queue st) as [|c q] eqn:E; simpl; [by rewrite E|].
    by inversion Hq.
  - done.
  - unfold post_api_coords, with_body.
    destruct (as_model PlayerInfo.parse body); done.
  - done.
  - unfold post_api_coords_inventory, with_body.
    destruct (as_model InventoryChange.parse body) as [change|]; [|done].
    unfold change_inventory. case_match; [done|].
    apply Forall_is_dict_snoc; [done | exact I].
  - apply Forall_is_dict_snoc; [done | exact I].
  - apply Forall_is_dict_snoc; [done | exact I].
  - unfold regear_player, snd. rewrite foldl_append_command_queue.
    apply Forall_app. split; [done | apply armor_commands_dicts].
  - apply Forall_is_dict_snoc; [done | exact I].
  - apply Forall_is_dict_snoc; [done | exact I].
  - apply Forall_is_dict_snoc; [done | exact I].
  - apply Forall_is_dict_snoc; [done | exact I].
  - apply Forall_is_dict_snoc; [done | exact I].
  - apply Forall_is_dict_snoc; [done | exact I].
Qed.

Lemma reachable_queue_dicts `{PyStr} `{Pydantic} st :
  reachable st -> Forall is_dict (command_queue st).
Proof.
  intros [reqs <-]. unfold run.
  assert (Hgen : forall s, Forall is_dict (command_queue s) ->
            Forall is_dict
              (command_queue (foldl (fun s req => snd (handle req s)) s reqs))).
  { induction reqs as [|r reqs IH]; intros s Hs; simpl; [done|].
    apply IH. by apply handle_queue_dicts. }
  apply Hgen. constructor.
Qed.

(** C6. Polling an empty queue returns the "none" response at once and
    leaves the state, hence the empty queue, as it was; in every state the
    application can reach, "none" is returned only when the queue is empty,
    and the response delivering a command, whatever its args (the empty list
    included), is never the "none" response. *)
Theorem poll_empty_queue `{PyStr} `{Pydantic} (st : state) :
  (command_queue st = [] -> get_next_command st = (none_response, st))
  /\ (reachable st ->
      fst (get_next_command st) = none_response -> command_queue st = [])
  /\ (forall c : Command.t, delivered (Command.dict c) <> none_response).
Proof.
  split; [|split].
  - intros Hq. unfold get_next_command. by rewrite Hq.
  - intros Hreach. apply reachable_queue_dicts in Hreach.
    unfold get_next_command.
    destruct (command_queue st) as [|c q]; [done|].
    simpl. intros Heq. inversion Hreach as [|? ? Hc _]; subst.
    destruct c; done.
  - intros c Heq. inversion Heq.
Qed.

Lemma poll_empty_queue_witness :
  let body := PDict [("command", PStr "flame"); ("args", PList [])] in
  let st1 := @run ascii_PyStr exact_types [POST_api_command body] initial_state in
  let st2 := @run ascii_PyStr exact_types [POST_api_command body; GET_api_command]
               initial_state in
  @reachable ascii_PyStr exact_types st1
  /\ fst (get_next_command st1) <> none_response
  /\ command_queue st2 = []
  /\ get_next_command st2 = (none_response, st2).
Proof.
  intros body st1 st2.
  assert (Hreach : @reachable ascii_PyStr exact_types st1)
    by (by exists [POST_api_command body]).
  split; [exact Hreach|]. split; [|split; [reflexivity|]].
  - intros Hnone.
    pose proof (proj1 (proj2 (@poll_empty_queue ascii_PyStr exact_types st1))
                  Hreach Hnone) as Hempty.
    discriminate Hempty.
  - apply (proj1 (@poll_empty_queue ascii_PyStr exact_types st2)). reflexivity.
Defined.

(** C7. Submit-then-poll round trip: from an empty queue, submitting
    player "Alice", command "give", args ["diamond_sword", "1"] is
    acknowledged with the stored command, the next poll returns exactly that
    command and a second poll returns "none". *)
Theorem submit_then_poll `{Pydantic} (pd : gmap string pyval)
    (out : list string) :
  let alice_give :=
    PDict [("player", PStr "Alice"); ("command", PStr "give");
           ("args", PList [PStr "diamond_sword"; PStr "1"])] in
  let '(ack, st1) := post_api_command alice_give (mkState [] pd out) in
  let '(r1, st2) := get_next_command st1 in
  let '(r2, st3) := get_next_command st2 in
  ack = JSON 200 (PDict [("status", PStr "ok"); ("queued", alice_give)])
  /\ r1 = delivered alice_give
  /\ r2 = none_response
  /\ command_queue st3 = [].
Proof.
  intros alice_give.
  assert (Hpost : post_api_command alice_give (mkState [] pd out)
    = receive_command
        (Command.mk (Some "Alice") "give" ["diamond_sword"; "1"])
        (mkState [] pd out)).
  { unfold post_api_command, with_body.
    change alice_give
      with (Command.dict
              (Command.mk (Some "Alice") "give" ["diamond_sword"; "1"])).
    by rewrite Command_roundtrip. }
  rewrite Hpost. simpl. done.
Qed.

(** C8. A command submitted without a target is validated to a command whose
    player is [None]; the stored dictionary carries ["player": None], and
    that is what a poll returns once the commands queued before it have been
    taken: no agent name and no empty string is put in its place. *)
Theorem absent_target_preserved `{Pydantic} (d : pydict) (cmd : Command.t) (st : state) :
  dict_get "player" d = None ->
  Command.parse d = Some cmd ->
  let st' := snd (post_api_command (PDict d) st) in
  Command.player cmd = None
  /\ command_queue st' = command_queue st ++ [Command.dict cmd]
  /\ get_field "player" (Command.dict cmd) = Some PNone
  /\ fst (poll_n 1 (snd (poll_n (length (command_queue st)) st')))
     = [delivered (PDict [("player", PNone);
                          ("command", PStr (Command.command cmd));
                          ("args", list_dict PStr (Command.args cmd))])].
Proof.
  intros Hplayer Hparse st'.
  assert (Hnone : Command.player cmd = None).
  { unfold Command.parse, optional in Hparse. rewrite Hplayer in Hparse.
    simpl in Hparse.
    destruct (required as_str "command" d); [|done]. simpl in Hparse.
    destruct (required (as_list as_str) "args" d); [|done].
    simpl in Hparse. by inversion Hparse. }
  assert (Hst : st' = snd (receive_command cmd st)).
  { unfold st', post_api_command, with_body.
    by rewrite as_model_PDict, Hparse. }
  assert (Hdict : Command.dict cmd
    = PDict [("player", PNone); ("command", PStr (Command.command cmd));
             ("args", list_dict PStr (Command.args cmd))]).
  { unfold Command.dict. by rewrite Hnone. }
  split; [done|]. split; [by rewrite Hst|].
  split; [by rewrite Hdict|].
  rewrite Hst. destruct st as [q pd out].
  unfold receive_command, append_command.
  cbn [snd command_queue player_data stdout].
  rewrite poll_n_drain, Hdict. reflexivity.
Qed.

Lemma absent_target_preserved_witness :
  let d := [("command", PStr "flame"); ("args", PList [PStr "upgrade"])] in
  let cmd := Command.mk None "flame" ["upgrade"] in
  Command.player cmd = None
  /\ get_field "player" (Command.dict cmd) = Some PNone.
Proof.
  intros d cmd.
  destruct (absent_target_preserved d cmd initial_state)
    as (H1 & _ & H3 & _); [reflexivity | reflexivity |].
  split; [exact H1 | exact H3].
Defined.

(** C9. The inventory-change route: an action that is neither "add" nor
    "remove" is answered with status 400 and the state, hence the queue, is
    left as it was; for "add" or "remove" exactly one command is appended,
    named "inventory_edit", with args [action, item] and the given player
    as its target. *)
Theorem change_inventory_atomic (change : InventoryChange.t) (st : state) :
  let action := InventoryChange.action change in
  let cmd := PDict [("player", PStr (InventoryChange.player change));
                    ("command", PStr "inventory_edit");
                    ("args", PList [PStr action;
                                    PStr (InventoryChange.item change)])] in
  (action <> "add" -> action <> "remove" ->
     change_inventory change st
     = (JSON 400 (PDict [("error", PStr "Invalid action")]), st))
  /\ (action = "add" \/ action = "remove" ->
     fst (change_inventory change st)
     = JSON 200 (PDict [("status", PStr "queued"); ("command", cmd)])
     /\ command_queue (snd (change_inventory change st))
        = command_queue st ++ [cmd]
     /\ player_data (snd (change_inventory change st)) = player_data st).
Proof.
  intros action cmd. unfold change_inventory. fold action. split.
  - intros Hadd Hremove.
    rewrite bool_decide_eq_false_2; [done|].
    intros Hin. apply elem_of_cons in Hin as [?|Hin]; [done|].
    apply elem_of_cons in Hin as [?|Hin]; [done|].
    by apply elem_of_nil in Hin.
  - intros Hvalid.
    rewrite bool_decide_eq_true_2; [done|].
    destruct Hvalid as [-> | ->]; [left | right; left].
Qed.

Lemma change_inventory_atomic_witness :
  let bad := InventoryChange.mk "Alice" "drop" "stone" in
  let good := InventoryChange.mk "Alice" "add" "stone" in
  change_inventory bad initial_state
  = (JSON 400 (PDict [("error", PStr "Invalid action")]), initial_state)
  /\ command_queue (snd (change_inventory good initial_state))
     = [PDict [("player", PStr "Alice"); ("command", PStr "inventory_edit");
               ("args", PList [PStr "add"; PStr "stone"])]].
Proof.
  intros bad good. split.
  - apply (proj1 (change_inventory_atomic bad initial_state)); discriminate.
  - apply (proj2 (change_inventory_atomic good initial_state)).
    left. reflexivity.
Defined.

(** ** The state store *)

Lemma read_snapshot_lookup key st :
  read_snapshot key st = player_data st !! key.
Proof. reflexivity. Qed.

(** C3. Last write wins: after S1 and then S2 are published for the same
    key, read-states reports exactly S2 for that key, and the whole store is
    the one that publishing S2 alone would have left: nothing of S1
    survives. *)
Theorem last_write_wins (S1 S2 : PlayerInfo.t) (st : state) :
  PlayerInfo.name S1 = PlayerInfo.name S2 ->
  let st2 := snd (update_player_info S2 (snd (update_player_info S1 st))) in
  read_snapshot (PlayerInfo.name S1) st2 = Some (PlayerInfo.dict S2)
  /\ player_data st2 = player_data (snd (update_player_info S2 st)).
Proof.
  intros Hname st2. unfold st2. rewrite read_snapshot_lookup. simpl.
  rewrite Hname. split.
  - apply lookup_insert_eq.
  - apply insert_insert_eq.
Qed.

Lemma last_write_wins_witness :
  let st2 := snd (update_player_info steve_mining
                    (snd (update_player_info steve_idle initial_state))) in
  PlayerInfo.name steve_idle = PlayerInfo.name steve_mining
  /\ read_snapshot "Steve" st2 = Some (PlayerInfo.dict steve_mining).
Proof.
  intros st2. split; [reflexivity|].
  apply (last_write_wins steve_idle steve_mining initial_state).
  reflexivity.
Defined.

(** C10. Publishing for one key leaves every other key's snapshot as it
    was, and never touches the command queue. *)
Theorem publish_frame (info : PlayerInfo.t) (k : string) (st : state) :
  let st' := snd (update_player_info info st) in
  (k <> PlayerInfo.name info -> read_snapshot k st' = read_snapshot k st)
  /\ command_queue st' = command_queue st.
Proof.
  intros st'. split; [|reflexivity].
  intros Hk. unfold st'. rewrite !read_snapshot_lookup. simpl.
  by apply lookup_insert_ne.
Qed.

Lemma publish_frame_witness :
  let st := snd (update_player_info alex_idle initial_state) in
  "Alex" <> PlayerInfo.name steve_mining
  /\ read_snapshot "Alex" (snd (update_player_info steve_mining st))
     = read_snapshot "Alex" st.
Proof.
  intros st. split; [discriminate|].
  apply (proj1 (publish_frame steve_mining "Alex" st)). discriminate.
Defined.

(** Whatever the model, a body that does not validate leaves the state. *)
Lemma with_body_rejected `{Pydantic} {A : Type} (parse : pydict -> option A)
    (handler : A -> state -> response * state) (body : pyval) (st : state) :
  as_model parse body = None ->
  with_body parse handler body st = (RequestValidationError, st).
Proof. intros Hfail. unfold with_body. by rewrite Hfail. Qed.

(** A required field that is missing or [null] fails validation, whatever
    the validator of its type converts. *)
Lemma required_absent {A : Type} (elem : pyval -> option A) (k : string)
    (d : pydict) :
  elem PNone = None -> missing_or_null k d -> required elem k d = None.
Proof.
  intros Hnull [Hk | Hk]; unfold required; rewrite Hk; [reflexivity|].
  exact Hnull.
Qed.

Lemma CoordsInfo_absent_fails `{Pydantic} (k : string) (dc : pydict) :
  k ∈ ["x"; "y"; "z"; "world"] -> missing_or_null k dc ->
  CoordsInfo.parse dc = None.
Proof.
  intros Hin Habs. unfold CoordsInfo.parse.
  apply elem_of_cons in Hin as [-> | Hin].
  { by rewrite (required_absent as_float "x" dc as_float_PNone Habs). }
  destruct (required as_float "x" dc); [|reflexivity].
  cbn [mbind option_bind].
  apply elem_of_cons in Hin as [-> | Hin].
  { by rewrite (required_absent as_float "y" dc as_float_PNone Habs). }
  destruct (required as_float "y" dc); [|reflexivity].
  cbn [mbind option_bind].
  apply elem_of_cons in Hin as [-> | Hin].
  { by rewrite (required_absent as_float "z" dc as_float_PNone Habs). }
  destruct (required as_float "z" dc); [|reflexivity].
  cbn [mbind option_bind].
  apply elem_of_cons in Hin as [-> | Hin]; [|by apply elem_of_nil in Hin].
  by rewrite (required_absent as_str "world" dc as_str_PNone Habs).
Qed.

(** A snapshot without coordinates does not validate. *)
Lemma missing_coords_fails_validation `{Pydantic} (d : pydict) :
  dict_get "coords" d = None -> PlayerInfo.parse d = None.
Proof.
  intros Hcoords. unfold PlayerInfo.parse.
  destruct (required as_str "name" d); [|done]. simpl.
  unfold required at 1. by rewrite Hcoords.
Qed.

(** Nor does one whose name or coordinates, or any of the four parts of the
    coordinates, is missing or [null]. *)
Lemma absent_required_fails_validation `{Pydantic} (d : pydict) :
  missing_or_null "name" d
  \/ missing_or_null "coords" d
  \/ (exists dc k, dict_get "coords" d = Some (PDict dc)
                   /\ k ∈ ["x"; "y"; "z"; "world"]
                   /\ missing_or_null k dc) ->
  PlayerInfo.parse d = None.
Proof.
  intros Hbad. unfold PlayerInfo.parse.
  destruct Hbad as [Hname | Hrest].
  { by rewrite (required_absent as_str "name" d as_str_PNone Hname). }
  destruct (required as_str "name" d); [|reflexivity].
  cbn [mbind option_bind].
  destruct Hrest as [Hcoords | (dc & k & Hcoords & Hin & Habs)].
  - by rewrite (required_absent (as_model CoordsInfo.parse) "coords" d
                  (as_model_PNone _) Hcoords).
  - unfold required at 1. rewrite Hcoords. cbn [mbind option_bind].
    by rewrite as_model_PDict, (CoordsInfo_absent_fails k dc Hin Habs).
Qed.

(** C5. A submitted snapshot that fails validation is rejected before the
    handler runs: the state is the one before the request, so read-states
    reports for every key what it reported before (the prior snapshot, or
    nothing).  Whatever the library converts, a snapshot without
    coordinates fails validation, and so does one whose name, coordinates
    or any part of the coordinates is missing or [null]. *)
Theorem rejected_snapshot_leaves_store `{Pydantic} (body : pyval)
    (st : state) :
  (as_model PlayerInfo.parse body = None ->
     post_api_coords body st = (RequestValidationError, st)
     /\ forall key,
          read_snapshot key (snd (post_api_coords body st))
          = read_snapshot key st)
  /\ (forall d, body = PDict d -> dict_get "coords" d = None ->
        as_model PlayerInfo.parse body = None)
  /\ (forall d, body = PDict d ->
        missing_or_null "name" d
        \/ missing_or_null "coords" d
        \/ (exists dc k, dict_get "coords" d = Some (PDict dc)
                         /\ k ∈ ["x"; "y"; "z"; "world"]
                         /\ missing_or_null k dc) ->
        as_model PlayerInfo.parse body = None).
Proof.
  split; [|split].
  - intros Hfail. unfold post_api_coords.
    by rewrite (with_body_rejected _ _ _ _ Hfail).
  - intros d -> Hcoords. rewrite as_model_PDict.
    by apply missing_coords_fails_validation.
  - intros d -> Hbad. rewrite as_model_PDict.
    by apply absent_required_fails_validation.
Qed.

Lemma rejected_snapshot_leaves_store_witness :
  let st := snd (update_player_info steve_idle initial_state) in
  dict_get "coords" steve_no_coords_body = None
  /\ post_api_coords (PDict steve_no_coords_body) st
     = (RequestValidationError, st)
  /\ read_snapshot "Steve"
       (snd (post_api_coords (PDict steve_no_coords_body) st))
     = Some (PlayerInfo.dict steve_idle).
Proof.
  intros st.
  destruct (rejected_snapshot_leaves_store (PDict steve_no_coords_body) st)
    as (Hkeep & Hcoords & _).
  specialize (Hcoords steve_no_coords_body eq_refl eq_refl).
  destruct (Hkeep Hcoords) as [Hsame Hread].
  split; [reflexivity|]. split; [exact Hsame|].
  rewrite (Hread "Steve"). apply lookup_insert_eq.
Defined.
(** ** Omitted optional fields *)

Lemma publish_then_read `{Pydantic} (d : pydict) (info : PlayerInfo.t) (st : state) :
  PlayerInfo.parse d = Some info ->
  read_snapshot (PlayerInfo.name info) (snd (post_api_coords (PDict d) st))
  = Some (PlayerInfo.dict info).
Proof.
  intros Hparse. unfold post_api_coords, with_body.
  rewrite as_model_PDict, Hparse.
  rewrite read_snapshot_lookup. simpl. apply lookup_insert_eq.
Qed.

Lemma PlayerInfo_omitted_fields `{Pydantic} (d : pydict) (info : PlayerInfo.t) :
  PlayerInfo.parse d = Some info ->
  let field k := get_field k (PlayerInfo.dict info) in
  (dict_get "armor" d = None -> field "armor" = Some PNone)
  /\ (dict_get "offhand" d = None -> field "offhand" = Some PNone)
  /\ (dict_get "status" d = None -> field "status" = Some PNone)
  /\ (dict_get "world" d = None -> field "world" = Some PNone)
  /\ (dict_get "heldItem" d = None -> field "heldItem" = Some PNone)
  /\ (dict_get "currentAction" d = None ->
        field "currentAction" = Some (PStr "idle"))
  /\ (dict_get "inventory" d = None -> field "inventory" = Some (PList []))
  /\ (dict_get "enderChest" d = None -> field "enderChest" = Some (PList []))
  /\ (dict_get "nearbyEntities" d = None ->
        field "nearbyEntities" = Some (PList [])).
Proof.
  intros Hparse field. unfold PlayerInfo.parse in Hparse.
  bind_inv Hparse. injection Hparse as <-. subst field. cbn.
  repeat split; intros Hk.
  - omitted E2 Hk.
  - omitted E3 Hk.
  - omitted E5 Hk.
  - omitted E6 Hk.
  - omitted E9 Hk.
  - omitted E8 Hk.
  - omitted E1 Hk.
  - omitted E4 Hk.
  - omitted E7 Hk.
Qed.

Lemma ItemInfo_omitted_fields `{Pydantic} (d : pydict) (item : ItemInfo.t) :
  ItemInfo.parse d = Some item ->
  let field k := get_field k (ItemInfo.dict item) in
  (dict_get "customModelData" d = None ->
     field "customModelData" = Some PNone)
  /\ (dict_get "displayName" d = None ->
        field "displayName" = Some (PStr EmptyString))
  /\ (dict_get "damage" d = None -> field "damage" = Some (PInt 0))
  /\ (dict_get "maxDurability" d = None ->
        field "maxDurability" = Some (PInt 0))
  /\ (dict_get "durabilityPercentage" d = None ->
        field "durabilityPercentage" = Some (PFloat float_100))
  /\ (dict_get "enchantments" d = None ->
        field "enchantments" = Some (PList []))
  /\ (dict_get "lore" d = None -> field "lore" = Some (PList []))
  /\ (dict_get "attributeModifiers" d = None ->
        field "attributeModifiers" = Some (PList []))
  /\ (dict_get "itemFlags" d = None -> field "itemFlags" = Some (PList []))
  /\ (dict_get "nbtTags" d = None -> field "nbtTags" = Some (PDict [])).
Proof.
  intros Hparse field. unfold ItemInfo.parse in Hparse.
  bind_inv Hparse. injection Hparse as <-. subst field. cbn.
  repeat split; intros Hk.
  - omitted E7 Hk.
  - omitted E1 Hk.
  - omitted E2 Hk.
  - omitted E3 Hk.
  - omitted E4 Hk.
  - omitted E5 Hk.
  - omitted E6 Hk.
  - omitted E8 Hk.
  - omitted E9 Hk.
  - omitted E10 Hk.
Qed.

Lemma AttributeModifierInfo_omitted_slot `{Pydantic} (d : pydict)
    (m : AttributeModifierInfo.t) :
  AttributeModifierInfo.parse d = Some m ->
  dict_get "slot" d = None ->
  get_field "slot" (AttributeModifierInfo.dict m) = Some PNone.
Proof.
  intros Hparse Hk. unfold AttributeModifierInfo.parse in Hparse.
  bind_inv Hparse. injection Hparse as <-. cbn. omitted E3 Hk.
Qed.

Lemma StatusInfo_omitted_absorption `{Pydantic} (d : pydict) (s : StatusInfo.t) :
  StatusInfo.parse d = Some s ->
  dict_get "absorption" d = None ->
  get_field "absorption" (StatusInfo.dict s) = Some (PFloat float_0).
Proof.
  intros Hparse Hk. unfold StatusInfo.parse in Hparse.
  bind_inv Hparse. injection Hparse as <-. cbn. omitted E1 Hk.
Qed.

Lemma PotionEffectInfo_omitted_source `{Pydantic} (d : pydict) (e : PotionEffectInfo.t) :
  PotionEffectInfo.parse d = Some e ->
  dict_get "source" d = None ->
  get_field "source" (PotionEffectInfo.dict e) = Some (PStr "unknown").
Proof.
  intros Hparse Hk. unfold PotionEffectInfo.parse in Hparse.
  bind_inv Hparse. injection Hparse as <-. cbn. omitted E6 Hk.
Qed.


Lemma ArmorInfo_omitted_slot `{Pydantic} (d : pydict) (a : ArmorInfo.t)
    (slot : string) :
  ArmorInfo.parse d = Some a ->
  slot ∈ ["helmet"; "chestplate"; "leggings"; "boots"] ->
  dict_get slot d = None ->
  get_field slot (ArmorInfo.dict a) = Some PNone.
Proof.
  intros Hparse Hin Hk. unfold ArmorInfo.parse in Hparse.
  bind_inv Hparse. injection Hparse as <-.
  apply elem_of_cons in Hin as [-> | Hin];
    [with_field "helmet" ltac:(fun E => omitted E Hk)|].
  apply elem_of_cons in Hin as [-> | Hin];
    [with_field "chestplate" ltac:(fun E => omitted E Hk)|].
  apply elem_of_cons in Hin as [-> | Hin];
    [with_field "leggings" ltac:(fun E => omitted E Hk)|].
  apply elem_of_cons in Hin as [-> | Hin];
    [with_field "boots" ltac:(fun E => omitted E Hk)|].
  by apply elem_of_nil in Hin.
Qed.

(** *** Positions inside a published body and inside what is stored *)

Lemma get_path_app (p q : list step) : forall v,
  get_path (p ++ q) v = get_path p v ≫= get_path q.
Proof.
  induction p as [|s p IH]; intros v; [reflexivity|].
  destruct s as [k | i]; destruct v as [| | | | |l|kv]; try reflexivity.
  - cbn [app get_path]. destruct (dict_get k kv); [apply IH | reflexivity].
  - cbn [app get_path]. destruct (l !! i); [apply IH | reflexivity].
Qed.

Lemma get_path_key (k : string) (v : pyval) :
  get_path [Key k] v = get_field k v.
Proof.
  destruct v as [| | | | | |kv]; try reflexivity.
  cbn. by destruct (dict_get k kv).
Qed.

Lemma get_path_snoc_key (p : list step) (k : string) (v w : pyval) :
  get_path p v = Some w -> get_path (p ++ [Key k]) v = get_field k w.
Proof.
  intros Hp. rewrite get_path_app, Hp. cbn [mbind option_bind].
  apply get_path_key.
Qed.

Lemma mapM_lookup {A : Type} (f : pyval -> option A) (l : list pyval)
    (ys : list A) (i : nat) (x : pyval) :
  mapM f l = Some ys -> l !! i = Some x ->
  exists y, ys !! i = Some y /\ f x = Some y.
Proof.
  intros Hm Hi. apply mapM_Some_1 in Hm.
  destruct (Forall2_lookup_l _ _ _ _ _ Hm Hi) as (y & Hy & Hf). by exists y.
Qed.

(** A nested model given as a dictionary, in an optional field. *)
Lemma optional_model_present `{Pydantic} {A : Type}
    (parse : pydict -> option A) (dflt : option A) (k : string)
    (d dv : pydict) (o : option A) :
  dict_get k d = Some (PDict dv) ->
  optional (as_model parse) dflt k d = Some o ->
  exists a, parse dv = Some a /\ o = Some a.
Proof.
  intros Hk Ho. unfold optional in Ho. rewrite Hk, as_model_PDict in Ho.
  destruct (parse dv) as [a|]; [|discriminate Ho].
  injection Ho as <-. by exists a.
Qed.

(** An element given as a dictionary in a list of models, in an optional
    and in a required field. *)
Lemma optional_list_present `{Pydantic} {A : Type}
    (parse : pydict -> option A) (dflt : option (list A)) (k : string)
    (d dv : pydict) (l : list pyval) (i : nat) (o : option (list A)) :
  dict_get k d = Some (PList l) -> l !! i = Some (PDict dv) ->
  optional (as_list (as_model parse)) dflt k d = Some o ->
  exists xs a, o = Some xs /\ xs !! i = Some a /\ parse dv = Some a.
Proof.
  intros Hk Hi Ho. unfold optional in Ho. rewrite Hk in Ho.
  unfold as_list in Ho. rewrite as_sequence_PList in Ho.
  cbn [mbind option_bind] in Ho.
  destruct (mapM (as_model parse) l) as [xs|] eqn:Hm; [|discriminate Ho].
  injection Ho as <-.
  destruct (mapM_lookup _ _ _ _ _ Hm Hi) as (a & Ha & Hp).
  rewrite as_model_PDict in Hp. by exists xs, a.
Qed.

Lemma required_list_present `{Pydantic} {A : Type}
    (parse : pydict -> option A) (k : string)
    (d dv : pydict) (l : list pyval) (i : nat) (xs : list A) :
  dict_get k d = Some (PList l) -> l !! i = Some (PDict dv) ->
  required (as_list (as_model parse)) k d = Some xs ->
  exists a, xs !! i = Some a /\ parse dv = Some a.
Proof.
  intros Hk Hi Hr. unfold required in Hr. rewrite Hk in Hr.
  cbn [mbind option_bind] in Hr.
  unfold as_list in Hr. rewrite as_sequence_PList in Hr.
  cbn [mbind option_bind] in Hr.
  destruct (mapM_lookup _ _ _ _ _ Hr Hi) as (a & Ha & Hp).
  rewrite as_model_PDict in Hp. by exists a.
Qed.

Lemma get_path_key_dict (k : string) (q : list step) (d : pydict)
    (w : pyval) :
  get_path (Key k :: q) (PDict d) = Some w ->
  exists v, dict_get k d = Some v /\ get_path q v = Some w.
Proof.
  cbn [get_path]. destruct (dict_get k d) as [v|]; [|discriminate].
  cbn [mbind option_bind]. intros Hq. by exists v.
Qed.

Lemma get_path_index (i : nat) (q : list step) (v w : pyval) :
  get_path (Index i :: q) v = Some w ->
  exists l x, v = PList l /\ l !! i = Some x /\ get_path q x = Some w.
Proof.
  destruct v as [| | | | |l|]; try discriminate.
  cbn [get_path]. destruct (l !! i) as [x|] eqn:Hx; [|discriminate].
  cbn [mbind option_bind]. intros Hq. by exists l, x.
Qed.

(** At every item position where the body has a dictionary, the stored
    snapshot has the [.dict()] of the item that dictionary validates to. *)
Lemma item_position_validated `{Pydantic} (d : pydict) (info : PlayerInfo.t)
    (p : list step) (di : pydict) :
  PlayerInfo.parse d = Some info ->
  item_position p ->
  get_path p (PDict d) = Some (PDict di) ->
  exists item,
    ItemInfo.parse di = Some item
    /\ get_path p (PlayerInfo.dict info) = Some (ItemInfo.dict item).
Proof.
  intros Hparse Hpos Hp. unfold PlayerInfo.parse in Hparse.
  bind_inv Hparse. injection Hparse as <-.
  destruct Hpos as [ | | slot Hslot | i | i].
  - apply get_path_key_dict in Hp as (v & Hk & Hv). injection Hv as ->.
    with_field "heldItem" ltac:(fun E =>
      destruct (optional_model_present _ _ _ _ _ _ Hk E) as (item & Hi & ->)).
    by exists item.
  - apply get_path_key_dict in Hp as (v & Hk & Hv). injection Hv as ->.
    with_field "offhand" ltac:(fun E =>
      destruct (optional_model_present _ _ _ _ _ _ Hk E) as (item & Hi & ->)).
    by exists item.
  - apply get_path_key_dict in Hp as (va & Hk & Hv).
    destruct va as [| | | | | |da]; try discriminate Hv.
    apply get_path_key_dict in Hv as (v & Hs & Hv). injection Hv as ->.
    with_field "armor" ltac:(fun E =>
      destruct (optional_model_present _ _ _ _ _ _ Hk E) as (arm & Ha & ->)).
    unfold ArmorInfo.parse in Ha. bind_inv Ha. injection Ha as <-.
    apply elem_of_cons in Hslot as [-> | Hslot].
    { with_field "helmet" ltac:(fun E =>
        destruct (optional_model_present _ _ _ _ _ _ Hs E)
          as (item & Hi & ->)).
      by exists item. }
    apply elem_of_cons in Hslot as [-> | Hslot].
    { with_field "chestplate" ltac:(fun E =>
        destruct (optional_model_present _ _ _ _ _ _ Hs E)
          as (item & Hi & ->)).
      by exists item. }
    apply elem_of_cons in Hslot as [-> | Hslot].
    { with_field "leggings" ltac:(fun E =>
        destruct (optional_model_present _ _ _ _ _ _ Hs E)
          as (item & Hi & ->)).
      by exists item. }
    apply elem_of_cons in Hslot as [-> | Hslot].
    { with_field "boots" ltac:(fun E =>
        destruct (optional_model_present _ _ _ _ _ _ Hs E)
          as (item & Hi & ->)).
      by exists item. }
    by apply elem_of_nil in Hslot.
  - apply get_path_key_dict in Hp as (v & Hk & Hv).
    apply get_path_index in Hv as (l & x & -> & Hx & Hv). injection Hv as ->.
    with_field "inventory" ltac:(fun E =>
      destruct (optional_list_present _ _ _ _ _ _ _ _ Hk Hx E)
        as (xs & item & -> & Hi & Hitem)).
    exists item. split; [exact Hitem|].
    cbn. unfold list_dict. cbn. rewrite list_lookup_fmap, Hi. reflexivity.
  - apply get_path_key_dict in Hp as (v & Hk & Hv).
    apply get_path_index in Hv as (l & x & -> & Hx & Hv). injection Hv as ->.
    with_field "enderChest" ltac:(fun E =>
      destruct (optional_list_present _ _ _ _ _ _ _ _ Hk Hx E)
        as (xs & item & -> & Hi & Hitem)).
    exists item. split; [exact Hitem|].
    cbn. unfold list_dict. cbn. rewrite list_lookup_fmap, Hi. reflexivity.
Qed.

Lemma armor_validated `{Pydantic} (d : pydict) (info : PlayerInfo.t)
    (da : pydict) :
  PlayerInfo.parse d = Some info ->
  dict_get "armor" d = Some (PDict da) ->
  exists arm,
    ArmorInfo.parse da = Some arm
    /\ get_path [Key "armor"] (PlayerInfo.dict info)
       = Some (ArmorInfo.dict arm).
Proof.
  intros Hparse Hk. unfold PlayerInfo.parse in Hparse.
  bind_inv Hparse. injection Hparse as <-.
  with_field "armor" ltac:(fun E =>
    destruct (optional_model_present _ _ _ _ _ _ Hk E) as (arm & Ha & ->)).
  by exists arm.
Qed.

Lemma status_validated `{Pydantic} (d : pydict) (info : PlayerInfo.t)
    (ds : pydict) :
  PlayerInfo.parse d = Some info ->
  dict_get "status" d = Some (PDict ds) ->
  exists s,
    StatusInfo.parse ds = Some s
    /\ get_path [Key "status"] (PlayerInfo.dict info)
       = Some (StatusInfo.dict s).
Proof.
  intros Hparse Hk. unfold PlayerInfo.parse in Hparse.
  bind_inv Hparse. injection Hparse as <-.
  with_field "status" ltac:(fun E =>
    destruct (optional_model_present _ _ _ _ _ _ Hk E)
      as (stat & Hs & ->)).
  by exists stat.
Qed.

Lemma effect_validated `{Pydantic} (d : pydict) (info : PlayerInfo.t)
    (i : nat) (de : pydict) :
  PlayerInfo.parse d = Some info ->
  get_path [Key "status"; Key "effects"; Index i] (PDict d)
  = Some (PDict de) ->
  exists e,
    PotionEffectInfo.parse de = Some e
    /\ get_path [Key "status"; Key "effects"; Index i] (PlayerInfo.dict info)
       = Some (PotionEffectInfo.dict e).
Proof.
  intros Hparse Hp.
  apply get_path_key_dict in Hp as (vs & Hk & Hv).
  destruct vs as [| | | | | |ds]; try discriminate Hv.
  apply get_path_key_dict in Hv as (ve & Hke & Hv).
  apply get_path_index in Hv as (l & x & -> & Hx & Hv). injection Hv as ->.
  destruct (status_validated d info ds Hparse Hk) as (s & Hs & Hstored).
  change [Key "status"; Key "effects"; Index i]
    with ([Key "status"] ++ [Key "effects"; Index i]).
  rewrite get_path_app, Hstored. cbn [mbind option_bind].
  unfold StatusInfo.parse in Hs. bind_inv Hs. injection Hs as <-.
  with_field "effects" ltac:(fun E =>
    destruct (required_list_present _ _ _ _ _ _ _ Hke Hx E)
      as (e & He & Hparse_e)).
  exists e. split; [exact Hparse_e|].
  cbn. unfold list_dict. cbn. rewrite list_lookup_fmap, He. reflexivity.
Qed.

Lemma modifier_validated `{Pydantic} (d : pydict) (info : PlayerInfo.t)
    (p : list step) (j : nat) (dm : pydict) :
  PlayerInfo.parse d = Some info ->
  item_position p ->
  get_path (p ++ [Key "attributeModifiers"; Index j]) (PDict d)
  = Some (PDict dm) ->
  exists m,
    AttributeModifierInfo.parse dm = Some m
    /\ get_path (p ++ [Key "attributeModifiers"; Index j])
         (PlayerInfo.dict info)
       = Some (AttributeModifierInfo.dict m).
Proof.
  intros Hparse Hpos Hp. rewrite get_path_app in Hp.
  destruct (get_path p (PDict d)) as [vq|] eqn:Hq; [|discriminate Hp].
  cbn [mbind option_bind] in Hp.
  destruct vq as [| | | | | |di]; try discriminate Hp.
  destruct (item_position_validated d info p di Hparse Hpos Hq)
    as (item & Hitem & Hstored).
  rewrite get_path_app, Hstored. cbn [mbind option_bind].
  apply get_path_key_dict in Hp as (v & Hk & Hv).
  apply get_path_index in Hv as (l & x & -> & Hx & Hv). injection Hv as ->.
  unfold ItemInfo.parse in Hitem. bind_inv Hitem. injection Hitem as <-.
  with_field "attributeModifiers" ltac:(fun E =>
    destruct (optional_list_present _ _ _ _ _ _ _ _ Hk Hx E)
      as (ms & m & -> & Hm & Hparse_m)).
  exists m. split; [exact Hparse_m|].
  cbn. unfold list_dict. cbn. rewrite list_lookup_fmap, Hm. reflexivity.
Qed.

(** *** A default sent explicitly *)

Lemma PlayerInfo_default_explicit `{Pydantic} (k : string) (dv : pyval)
    (d : pydict) :
  (k, dv) ∈ PlayerInfo_defaults -> dict_get k d = None ->
  PlayerInfo.parse ((k, dv) :: d) = PlayerInfo.parse d.
Proof.
  intros Hin Hk. unfold PlayerInfo_defaults in Hin.
  unfold PlayerInfo.parse, required, optional.
  repeat (apply elem_of_cons in Hin as [Heq | Hin];
          [injection Heq as -> ->; default_case Hk|]).
  by apply elem_of_nil in Hin.
Qed.

Lemma ItemInfo_default_explicit `{Pydantic} (k : string) (dv : pyval)
    (d : pydict) :
  (k, dv) ∈ ItemInfo_defaults -> dict_get k d = None ->
  ItemInfo.parse ((k, dv) :: d) = ItemInfo.parse d.
Proof.
  intros Hin Hk. unfold ItemInfo_defaults in Hin.
  unfold ItemInfo.parse, required, optional.
  repeat (apply elem_of_cons in Hin as [Heq | Hin];
          [injection Heq as -> ->; default_case Hk|]).
  by apply elem_of_nil in Hin.
Qed.

(** C2, as the code has it.  A snapshot published with armor, offhand,
    status, world or heldItem omitted reads back with that field absent
    ([None]; armor is not four empty slots), and so do an omitted slot of a
    reported armor, an item's omitted customModelData and a modifier's
    omitted slot, wherever the item sits in the snapshot (held, off hand,
    armor slot, inventory or ender chest).  The other optional fields read
    back as their declared defaults: currentAction "idle", an item's
    displayName the empty string, damage and maxDurability 0,
    durabilityPercentage 100.0, a status's absorption 0.0, an effect's
    source "unknown", and every omitted collection empty.  A top-level
    default sent explicitly is served exactly as the omitted field: same
    response, same state. *)
Theorem omitted_fields_read_back `{Pydantic} (d : pydict)
    (info : PlayerInfo.t) (st : state) :
  PlayerInfo.parse d = Some info ->
  let stored :=
    read_snapshot (PlayerInfo.name info)
      (snd (post_api_coords (PDict d) st)) in
  let readback k := stored ≫= get_field k in
  ((dict_get "armor" d = None -> readback "armor" = Some PNone)
   /\ (dict_get "offhand" d = None -> readback "offhand" = Some PNone)
   /\ (dict_get "status" d = None -> readback "status" = Some PNone)
   /\ (dict_get "world" d = None -> readback "world" = Some PNone)
   /\ (dict_get "heldItem" d = None -> readback "heldItem" = Some PNone)
   /\ (dict_get "currentAction" d = None ->
         readback "currentAction" = Some (PStr "idle"))
   /\ (dict_get "inventory" d = None ->
         readback "inventory" = Some (PList []))
   /\ (dict_get "enderChest" d = None ->
         readback "enderChest" = Some (PList []))
   /\ (dict_get "nearbyEntities" d = None ->
         readback "nearbyEntities" = Some (PList [])))
  /\ (forall da slot,
        dict_get "armor" d = Some (PDict da) ->
        slot ∈ ["helmet"; "chestplate"; "leggings"; "boots"] ->
        dict_get slot da = None ->
        stored ≫= get_path [Key "armor"; Key slot] = Some PNone)
  /\ (forall p di,
        item_position p ->
        get_path p (PDict d) = Some (PDict di) ->
        let field k := stored ≫= get_path (p ++ [Key k]) in
        (dict_get "customModelData" di = None ->
           field "customModelData" = Some PNone)
        /\ (dict_get "displayName" di = None ->
              field "displayName" = Some (PStr EmptyString))
        /\ (dict_get "damage" di = None -> field "damage" = Some (PInt 0))
        /\ (dict_get "maxDurability" di = None ->
              field "maxDurability" = Some (PInt 0))
        /\ (dict_get "durabilityPercentage" di = None ->
              field "durabilityPercentage" = Some (PFloat float_100))
        /\ (dict_get "enchantments" di = None ->
              field "enchantments" = Some (PList []))
        /\ (dict_get "lore" di = None -> field "lore" = Some (PList []))
        /\ (dict_get "attributeModifiers" di = None ->
              field "attributeModifiers" = Some (PList []))
        /\ (dict_get "itemFlags" di = None ->
              field "itemFlags" = Some (PList []))
        /\ (dict_get "nbtTags" di = None -> field "nbtTags" = Some (PDict [])))
  /\ (forall p j dm,
        item_position p ->
        get_path (p ++ [Key "attributeModifiers"; Index j]) (PDict d)
        = Some (PDict dm) ->
        dict_get "slot" dm = None ->
        stored
          ≫= get_path ((p ++ [Key "attributeModifiers"; Index j])
                         ++ [Key "slot"])
        = Some PNone)
  /\ (forall ds,
        dict_get "status" d = Some (PDict ds) ->
        dict_get "absorption" ds = None ->
        stored ≫= get_path [Key "status"; Key "absorption"]
        = Some (PFloat float_0))
  /\ (forall i de,
        get_path [Key "status"; Key "effects"; Index i] (PDict d)
        = Some (PDict de) ->
        dict_get "source" de = None ->
        stored ≫= get_path [Key "status"; Key "effects"; Index i; Key "source"]
        = Some (PStr "unknown"))
  /\ (forall k dv,
        (k, dv) ∈ PlayerInfo_defaults ->
        dict_get k d = None ->
        post_api_coords (PDict ((k, dv) :: d)) st
        = post_api_coords (PDict d) st).
Proof.
  intros Hparse stored readback.
  assert (Hstored : stored = Some (PlayerInfo.dict info))
    by apply (publish_then_read d info st Hparse).
  subst readback. rewrite Hstored. cbn [mbind option_bind].
  split; [exact (PlayerInfo_omitted_fields d info Hparse)|].
  split; [|split; [|split; [|split; [|split]]]].
  - intros da slot Hk Hin Hs.
    destruct (armor_validated d info da Hparse Hk) as (arm & Ha & Hp).
    change [Key "armor"; Key slot] with ([Key "armor"] ++ [Key slot]).
    rewrite (get_path_snoc_key _ _ _ _ Hp).
    by apply (ArmorInfo_omitted_slot da).
  - intros p di Hpos Hp. cbv zeta beta.
    destruct (item_position_validated d info p di Hparse Hpos Hp)
      as (item & Hitem & Hat).
    rewrite !(get_path_snoc_key _ _ _ _ Hat).
    exact (ItemInfo_omitted_fields di item Hitem).
  - intros p j dm Hpos Hp Hk.
    destruct (modifier_validated d info p j dm Hparse Hpos Hp)
      as (m & Hm & Hat).
    rewrite (get_path_snoc_key _ _ _ _ Hat).
    by apply (AttributeModifierInfo_omitted_slot dm).
  - intros ds Hk Habs.
    destruct (status_validated d info ds Hparse Hk) as (s & Hs & Hat).
    change [Key "status"; Key "absorption"]
      with ([Key "status"] ++ [Key "absorption"]).
    rewrite (get_path_snoc_key _ _ _ _ Hat).
    by apply (StatusInfo_omitted_absorption ds).
  - intros i de Hp Hk.
    destruct (effect_validated d info i de Hparse Hp) as (e & He & Hat).
    change [Key "status"; Key "effects"; Index i; Key "source"]
      with ([Key "status"; Key "effects"; Index i] ++ [Key "source"]).
    rewrite (get_path_snoc_key _ _ _ _ Hat).
    by apply (PotionEffectInfo_omitted_source de).
  - intros k dv Hin Hk. unfold post_api_coords, with_body.
    rewrite !as_model_PDict.
    by rewrite (PlayerInfo_default_explicit k dv d Hin Hk).
Qed.

Lemma omitted_fields_read_back_witness :
  let st := snd (post_api_coords (PDict steve_holding_body) initial_state) in
  dict_get "armor" steve_holding_body = None
  /\ (read_snapshot "Steve" st ≫= get_field "armor") = Some PNone
  /\ (read_snapshot "Steve" st
        ≫= get_path [Key "heldItem"; Key "customModelData"]) = Some PNone
  /\ (read_snapshot "Steve" st
        ≫= get_path [Key "inventory"; Index 0; Key "displayName"])
     = Some (PStr EmptyString)
  /\ post_api_coords
       (PDict (("currentAction", PStr "idle") :: steve_holding_body))
       initial_state
     = post_api_coords (PDict steve_holding_body) initial_state.
Proof.
  intros st.
  pose (stone := ItemInfo.mk "stone" 1 (Some EmptyString) (Some 0) (Some 0)
                   (Some float_100) (Some []) (Some []) None (Some [])
                   (Some []) (Some [])).
  destruct (@omitted_fields_read_back exact_types steve_holding_body
              (PlayerInfo.mk "Steve" origin (Some [stone]) None None
                 (Some []) None None (Some []) (Some "idle") (Some stone))
              initial_state eq_refl)
    as ((Harmor & _) & _ & Hitem & _ & _ & _ & Hdefault).
  split; [reflexivity|]. split; [exact (Harmor eq_refl)|].
  split; [|split].
  - destruct (Hitem [Key "heldItem"] stone_minimal_body pos_heldItem eq_refl)
      as (Hcmd & _).
    exact (Hcmd eq_refl).
  - destruct (Hitem [Key "inventory"; Index 0%nat] stone_minimal_body
                (pos_inventory 0) eq_refl)
      as (_ & Hname & _).
    exact (Hname eq_refl).
  - apply (Hdefault "currentAction" (PStr "idle")); [|reflexivity].
    unfold PlayerInfo_defaults. do 7 (apply elem_of_cons; right).
    apply elem_of_cons. by left.
Defined.
(** C2 as stated fails: a snapshot published without currentAction reads
    back with currentAction "idle", not absent, and the stored snapshot is
    the very one that a body reporting "idle" leaves; an item given without
    displayName, damage, maxDurability and durabilityPercentage reads back
    with the empty name, 0, 0 and 100.0. *)
Lemma omitted_currentAction_reads_idle :
  let st := snd (post_api_coords (PDict steve_minimal_body) initial_state) in
  let explicit := steve_minimal_body ++ [("currentAction", PStr "idle")] in
  dict_get "currentAction" steve_minimal_body = None
  /\ (read_snapshot "Steve" st ≫= get_field "currentAction")
     = Some (PStr "idle")
  /\ (read_snapshot "Steve" st ≫= get_field "currentAction") <> Some PNone
  /\ read_snapshot "Steve" st
     = read_snapshot "Steve"
         (snd (post_api_coords (PDict explicit) initial_state))
  /\ dict_get "displayName" stone_minimal_body = None
  /\ dict_get "durabilityPercentage" stone_minimal_body = None
  /\ ((ItemInfo.dict <$> ItemInfo.parse stone_minimal_body)
        ≫= get_field "displayName") = Some (PStr EmptyString)
  /\ ((ItemInfo.dict <$> ItemInfo.parse stone_minimal_body)
        ≫= get_field "durabilityPercentage") = Some (PFloat float_100).
Proof.
  intros st explicit.
  assert (Hst : read_snapshot "Steve" st = Some (PlayerInfo.dict steve_idle)).
  { apply (publish_then_read steve_minimal_body steve_idle). reflexivity. }
  assert (Hex : read_snapshot "Steve"
                  (snd (post_api_coords (PDict explicit) initial_state))
                = Some (PlayerInfo.dict steve_idle)).
  { apply (publish_then_read explicit steve_idle). reflexivity. }
  rewrite Hst, Hex. repeat split; try reflexivity. discriminate.
Qed.

(** ** Requests and the two stores *)

Lemma run_app `{PyStr} `{Pydantic} reqs1 reqs2 st :
  run (reqs1 ++ reqs2) st = run reqs2 (run reqs1 st).
Proof. unfold run. apply foldl_app. Qed.

Lemma run_invariant `{PyStr} `{Pydantic} (P : state -> Prop) :
  (forall req st, P st -> P (snd (handle req st))) ->
  forall reqs st, P st -> P (run reqs st).
Proof.
  intros Hstep reqs. unfold run.
  induction reqs as [|r reqs IH]; intros st Hst; simpl; [done|].
  apply IH. by apply Hstep.
Qed.

Lemma literal_cmd_valid `{Pydantic} c args :
  as_model Command.parse (literal_cmd c args) = Some (Command.mk None c args).
Proof.
  unfold literal_cmd. rewrite as_model_PDict. unfold Command.parse.
  unfold optional at 1. cbn [dict_get String.eqb Ascii.eqb Bool.eqb andb].
  cbn [mbind option_bind].
  rt_required @required_hit.
  rt_required_by @required_hit
    ltac:(apply (as_list_roundtrip as_str PStr as_str_PStr)).
  reflexivity.
Qed.

Lemma literal_cmd_well_formed `{Pydantic} c args :
  well_formed_command (literal_cmd c args).
Proof.
  exists (Command.mk None c args). split; [apply literal_cmd_valid|].
  by split.
Qed.

Lemma Command_dict_well_formed `{Pydantic} cmd :
  well_formed_command (Command.dict cmd).
Proof. exists cmd. split; [apply Command_roundtrip|]. by split. Qed.

Lemma well_formed_is_valid `{Pydantic} v :
  well_formed_command v -> valid_command v.
Proof. intros (c & Hc & _). unfold valid_command. rewrite Hc. by eexists. Qed.

Lemma literal_cmd_valid_command `{Pydantic} c args : valid_command (literal_cmd c args).
Proof. apply well_formed_is_valid, literal_cmd_well_formed. Qed.

Lemma armor_commands_valid `{Pydantic} p : Forall valid_command (armor_commands p).
Proof.
  unfold armor_commands. repeat constructor; apply literal_cmd_valid_command.
Qed.

Lemma armor_commands_length p : length (armor_commands p) = 15%nat.
Proof. reflexivity. Qed.

Lemma armor_commands_well_formed `{Pydantic} p :
  Forall well_formed_command (armor_commands p).
Proof.
  unfold armor_commands. repeat constructor; apply literal_cmd_well_formed.
Qed.

(** What a request does to the queue: a poll takes the head off, every
    other request appends at the tail. *)
Lemma handle_queue_shape `{PyStr} `{Pydantic} req st :
  (req = GET_api_command
   /\ command_queue (snd (handle req st)) = drop 1 (command_queue st))
  \/ (req <> GET_api_command
      /\ exists added,
           command_queue (snd (handle req st)) = command_queue st ++ added
           /\ Forall well_formed_command added
           /\ (length added <= 15)%nat).
Proof.
  assert (Hone : forall c args,
    exists added, command_queue st ++ [literal_cmd c args]
                  = command_queue st ++ added
      /\ Forall well_formed_command added /\ (length added <= 15)%nat).
  { intros c args. exists [literal_cmd c args]. split; [done|].
    split; [|simpl; lia].
    constructor; [apply literal_cmd_well_formed | constructor]. }
  assert (Hnil : exists added,
    command_queue st = command_queue st ++ added
      /\ Forall well_formed_command added /\ (length added <= 15)%nat).
  { exists []. rewrite app_nil_r. split; [done|].
    split; [constructor | simpl; lia]. }
  destruct req; cbn [handle];
    try (right; split; [discriminate|]);
    try (apply Hone); try (exact Hnil).
  - unfold post_api_command, with_body.
    destruct (as_model Command.parse body) as [cmd|]; [|exact Hnil].
    exists [Command.dict cmd]. split; [reflexivity|].
    split; [|simpl; lia]. constructor; [|constructor].
    apply Command_dict_well_formed.
  - left. split; [reflexivity|]. unfold get_next_command.
    destruct (command_queue st) eqn:E; simpl; [exact E | reflexivity].
  - unfold post_api_coords, with_body.
    destruct (as_model PlayerInfo.parse body); exact Hnil.
  - unfold post_api_coords_inventory, with_body.
    destruct (as_model InventoryChange.parse body) as [change|];
      [|exact Hnil].
    unfold change_inventory. case_match; [exact Hnil|].
    eexists [_]. split; [reflexivity|]. split; [|simpl; lia].
    constructor; [|constructor].
    apply (Command_dict_well_formed
             (Command.mk (Some (InventoryChange.player change))
                "inventory_edit"
                [InventoryChange.action change;
                 InventoryChange.item change])).
  - exists (armor_commands player_name).
    unfold regear_player, snd. rewrite foldl_append_command_queue.
    split; [reflexivity|]. split; [apply armor_commands_well_formed|].
    rewrite armor_commands_length. lia.
Qed.

(** ** Further properties of the dispatch queue *)

(** X1. [n] polls in a row deliver the first min(n, K) of the K queued
    commands, each once and in queue order, answer "none" to the n - K polls
    that find the queue empty, leave the undelivered commands queued and do
    not touch the state store. *)
Theorem polls_deliver_each_once (n : nat) (st : state) :
  let K := length (command_queue st) in
  fst (poll_n n st)
  = (delivered <$> take n (command_queue st))
    ++ replicate (n - K) none_response
  /\ length (take n (command_queue st)) = Nat.min n K
  /\ command_queue (snd (poll_n n st)) = drop n (command_queue st)
  /\ player_data (snd (poll_n n st)) = player_data st.
Proof.
  intros K. subst K. destruct st as [q pd out].
  rewrite poll_n_spec. cbn [fst snd command_queue player_data].
  repeat split. apply length_take.
Qed.

(** X2. On a queue that is not empty, polling and submitting commute: the
    poll returns the same head whether the new command is appended before
    or after it, and the state left is the same. *)
Theorem poll_commutes_with_submit (cmd : Command.t) (st : state) :
  command_queue st <> [] ->
  get_next_command (snd (receive_command cmd st))
  = (fst (get_next_command st),
     snd (receive_command cmd (snd (get_next_command st)))).
Proof.
  intros Hq. destruct st as [[|c q] pd out]; [done|]. reflexivity.
Qed.

Lemma poll_commutes_with_submit_witness :
  let st := snd (receive_command (Command.mk None "flame" ["upgrade"])
                   initial_state) in
  let cmd := Command.mk (Some "Alice") "give" ["stone"; "1"] in
  command_queue st <> []
  /\ fst (get_next_command (snd (receive_command cmd st)))
     = fst (get_next_command st).
Proof.
  intros st cmd. split; [discriminate|].
  rewrite (poll_commutes_with_submit cmd st); [reflexivity | discriminate].
Defined.

(** X3. The queue is one global line: after any sequence of requests it is
    the initial queue followed by everything appended since, in order, with
    commands taken from the front only, at most one per poll.  No request
    reorders, duplicates or drops a queued command other than by polling the
    head; each request that is not a poll appends at most fifteen commands,
    and everything appended validates as a [Command]. *)
Theorem queue_is_one_line `{PyStr} `{Pydantic} (reqs : list request) (st : state) :
  exists (n : nat) (added : list pyval),
    command_queue (run reqs st) = drop n (command_queue st ++ added)
    /\ (n <= polls reqs)%nat
    /\ (length added <= 15 * (length reqs - polls reqs))%nat
    /\ Forall valid_command added.
Proof.
  assert (Hpolls : forall rs, (polls rs <= length rs)%nat).
  { intros rs. unfold polls. induction rs as [|r rs IH]; simpl; [lia|].
    destruct (is_poll r); simpl; lia. }
  revert st. induction reqs as [|r reqs IH]; intros st.
  - exists 0%nat, []. rewrite app_nil_r.
    split; [done|]. split; [simpl; lia|]. split; [simpl; lia | constructor].
  - change (run (r :: reqs) st) with (run reqs (snd (handle r st))).
    destruct (IH (snd (handle r st))) as (n & added & Hq & Hn & Hlen & Hvalid).
    rewrite Hq. specialize (Hpolls reqs).
    destruct (handle_queue_shape r st)
      as [[-> Hpoll] | [Hnot (added0 & Happ & Hwf0 & Hlen0)]].
    + rewrite Hpoll.
      assert (Hcount : polls (GET_api_command :: reqs) = S (polls reqs))
        by reflexivity.
      rewrite Hcount. cbn [length].
      destruct (command_queue st) as [|c q].
      * exists n, added.
        split; [done|]. split; [lia|]. split; [lia | done].
      * exists (S n), added.
        split; [done|]. split; [lia|]. split; [lia | done].
    + assert (Hcount : polls (r :: reqs) = polls reqs)
        by (unfold polls; by destruct r).
      rewrite Happ, Hcount. cbn [length].
      exists n, (added0 ++ added). rewrite <- app_assoc.
      split; [done|]. split; [lia|]. split; [rewrite length_app; lia|].
      apply Forall_app. split; [|done].
      eapply Forall_impl; [exact Hwf0 | apply @well_formed_is_valid].
Qed.

(** X4. In every state the application can reach, every queued value
    validates against the [Command] model, so whatever a poll delivers is a
    dictionary with a string under "command" and a list of strings under
    "args". *)
Theorem queue_holds_valid_commands `{PyStr} `{Pydantic} (st : state) :
  reachable st ->
  Forall valid_command (command_queue st)
  /\ forall head rest, command_queue st = head :: rest ->
       exists c, fst (get_next_command st) = delivered head
                 /\ as_model Command.parse head = Some c
                 /\ get_field "command" head = Some (PStr (Command.command c))
                 /\ get_field "args" head
                    = Some (list_dict PStr (Command.args c)).
Proof.
  intros [reqs <-].
  assert (Hall : Forall well_formed_command
                   (command_queue (run reqs initial_state))).
  { apply (run_invariant
             (fun s => Forall well_formed_command (command_queue s))).
    - intros req s Hs.
      destruct (handle_queue_shape req s)
        as [[_ ->] | [_ (added & -> & Hwf & _)]].
      + by apply Forall_drop.
      + by apply Forall_app.
    - constructor. }
  split.
  { eapply Forall_impl; [exact Hall | apply @well_formed_is_valid]. }
  intros head rest Hq. rewrite Hq in Hall.
  inversion Hall as [|? ? (c & Hc & Hcmd & Hargs) _]; subst.
  exists c. unfold get_next_command. rewrite Hq. by repeat split.
Qed.

Lemma queue_holds_valid_commands_witness :
  let st := @run ascii_PyStr exact_types
              [POST_api_flame_set "Alice" "blue"; POST_api_regear "Bob"]
              initial_state in
  @reachable ascii_PyStr exact_types st
  /\ Forall valid_command (command_queue st).
Proof.
  intros st.
  assert (Hreach : @reachable ascii_PyStr exact_types st)
    by (by exists [POST_api_flame_set "Alice" "blue"; POST_api_regear "Bob"]).
  split; [exact Hreach|].
  exact (proj1 (@queue_holds_valid_commands ascii_PyStr exact_types st Hreach)).
Defined.

(** ** The convenience routes *)

Lemma regear_kit_frame (player_name : string) (st : state) :
  command_queue (snd (regear_player player_name st))
  = command_queue st ++ armor_commands player_name
  /\ player_data (snd (regear_player player_name st)) = player_data st.
Proof.
  unfold regear_player, snd. split.
  - apply foldl_append_command_queue.
  - generalize (armor_commands player_name). intros cmds.
    revert st. induction cmds as [|c cmds IH]; intros st; simpl; [done|].
    by rewrite IH.
Qed.

(** X5. The regear route appends its fifteen "give" commands at the tail of
    the queue in the order of the kit, each with the player's name as its
    first argument; it reports that count, leaves the state store alone,
    and from an empty queue fifteen polls deliver the kit in order and the
    sixteenth finds the queue empty. *)
Theorem regear_enqueues_kit (player_name : string) (st : state) :
  let '(resp, st') := regear_player player_name st in
  command_queue st' = command_queue st ++ armor_commands player_name
  /\ length (armor_commands player_name) = 15%nat
  /\ resp = JSON 200 (PDict [("status", PStr "regeared");
                             ("player", PStr player_name);
                             ("items_given", PInt 15)])
  /\ Forall (fun cmd =>
       get_field "command" cmd = Some (PStr "give")
       /\ exists item count,
            get_field "args" cmd
            = Some (PList [PStr player_name; PStr item; PStr count]))
       (armor_commands player_name)
  /\ player_data st' = player_data st
  /\ (command_queue st = [] ->
      fst (poll_n 16 st')
      = (delivered <$> armor_commands player_name) ++ [none_response]).
Proof.
  pose proof (regear_kit_frame player_name st) as [Hq Hpd].
  destruct (regear_player player_name st) as [resp st'] eqn:Hrun.
  assert (Hresp : resp = fst (regear_player player_name st))
    by (by rewrite Hrun).
  cbn [snd] in Hq, Hpd.
  split; [exact Hq|]. split; [reflexivity|]. split; [by rewrite Hresp|].
  split; [|split; [exact Hpd|]].
  - unfold armor_commands.
    repeat (constructor; [split; [reflexivity | by eexists _, _]|]).
    constructor.
  - intros Hempty. rewrite Hempty in Hq. simpl in Hq.
    destruct st' as [q' pd' out']. simpl in Hq. subst q'.
    rewrite poll_n_spec. reflexivity.
Qed.

Lemma regear_enqueues_kit_witness :
  fst (poll_n 16 (snd (regear_player "Alice" initial_state)))
  = (delivered <$> armor_commands "Alice") ++ [none_response].
Proof.
  pose proof (regear_enqueues_kit "Alice" initial_state) as Hkit.
  destruct (regear_player "Alice" initial_state) as [resp st'].
  destruct Hkit as (_ & _ & _ & _ & _ & Hpoll).
  exact (Hpoll eq_refl).
Defined.



(** ** Round trips through validation *)

(** X7. A command dictionary produced by [.dict()], such as one a poll
    delivered, validates back to the command it came from: submitting it
    again behaves exactly as submitting the original command. *)
Theorem polled_command_resubmits `{Pydantic} (cmd : Command.t) (st : state) :
  as_model Command.parse (Command.dict cmd) = Some cmd
  /\ post_api_command (Command.dict cmd) st = receive_command cmd st.
Proof.
  split; [apply Command_roundtrip|].
  unfold post_api_command, with_body. by rewrite Command_roundtrip.
Qed.

(** X8. A stored snapshot validates back to the model it came from, with
    every nested item, armor slot, status, world and entity: publishing the
    dictionary again behaves exactly as publishing the original model. *)
Theorem stored_snapshot_republishes `{Pydantic} (info : PlayerInfo.t) (st : state) :
  as_model PlayerInfo.parse (PlayerInfo.dict info) = Some info
  /\ post_api_coords (PlayerInfo.dict info) st = update_player_info info st.
Proof.
  split; [apply PlayerInfo_roundtrip|].
  unfold post_api_coords, with_body. by rewrite PlayerInfo_roundtrip.
Qed.

(** ** Invariants of the state store *)

Lemma handle_player_data `{PyStr} `{Pydantic} req st :
  player_data (snd (handle req st)) = player_data st
  \/ exists body info,
       req = POST_api_coords body
       /\ as_model PlayerInfo.parse body = Some info
       /\ player_data (snd (handle req st))
          = <[PlayerInfo.name info := PlayerInfo.dict info]> (player_data st).
Proof.
  destruct req; cbn [handle]; try (by left).
  - left. unfold post_api_command, with_body.
    by destruct (as_model Command.parse body).
  - left. unfold get_next_command. by destruct (command_queue st).
  - unfold post_api_coords, with_body.
    destruct (as_model PlayerInfo.parse body) as [info|] eqn:Hparse;
      [|by left].
    right. by exists body, info.
  - left. unfold post_api_coords_inventory, with_body.
    destruct (as_model InventoryChange.parse body) as [change|]; [|done].
    unfold change_inventory. by case_match.
Qed.

Lemma handle_store_wf `{PyStr} `{Pydantic} req st :
  store_wf (player_data st) -> store_wf (player_data (snd (handle req st))).
Proof.
  intros Hwf.
  destruct (handle_player_data req st)
    as [-> | (body & info & _ & _ & ->)]; [done|].
  intros k snap Hk.
  destruct (decide (PlayerInfo.name info = k)) as [<-|Hne].
  - rewrite lookup_insert_eq in Hk. injection Hk as <-. by exists info.
  - rewrite lookup_insert_ne in Hk by done. by apply Hwf.
Qed.

Lemma reachable_store_wf `{PyStr} `{Pydantic} st :
  reachable st -> store_wf (player_data st).
Proof.
  intros [reqs <-].
  apply (run_invariant (fun s => store_wf (player_data s))).
  - apply @handle_store_wf.
  - intros k snap Hk. cbn [initial_state player_data] in Hk.
    by rewrite lookup_empty in Hk.
Qed.

(** X9. In every state the application can reach, each entry of the store
    is a complete validated snapshot filed under its own name: the value
    under key k is the [.dict()] of a model whose name is k, it carries k
    under "name", and it validates against [PlayerInfo]. *)
Theorem store_holds_validated_snapshots `{PyStr} `{Pydantic} (st : state)
    (k : string) (snap : pyval) :
  reachable st ->
  read_snapshot k st = Some snap ->
  exists info,
    snap = PlayerInfo.dict info
    /\ PlayerInfo.name info = k
    /\ get_field "name" snap = Some (PStr k)
    /\ as_model PlayerInfo.parse snap = Some info.
Proof.
  intros Hreach Hk. rewrite read_snapshot_lookup in Hk.
  destruct (reachable_store_wf st Hreach k snap Hk) as (info & -> & <-).
  exists info. repeat split. apply PlayerInfo_roundtrip.
Qed.

Lemma store_holds_validated_snapshots_witness :
  let st := @run ascii_PyStr exact_types [POST_api_coords (PDict steve_minimal_body)]
              initial_state in
  @reachable ascii_PyStr exact_types st
  /\ read_snapshot "Steve" st = Some (PlayerInfo.dict steve_idle)
  /\ exists info,
       PlayerInfo.dict steve_idle = PlayerInfo.dict info
       /\ PlayerInfo.name info = "Steve"
       /\ get_field "name" (PlayerInfo.dict steve_idle) = Some (PStr "Steve")
       /\ as_model PlayerInfo.parse (PlayerInfo.dict steve_idle) = Some info.
Proof.
  intros st.
  assert (Hreach : @reachable ascii_PyStr exact_types st)
    by (by exists [POST_api_coords (PDict steve_minimal_body)]).
  assert (Hread : read_snapshot "Steve" st = Some (PlayerInfo.dict steve_idle))
    by apply lookup_insert_eq.
  split; [exact Hreach|]. split; [exact Hread|].
  exact (@store_holds_validated_snapshots ascii_PyStr exact_types st "Steve"
           (PlayerInfo.dict steve_idle) Hreach Hread).
Defined.

(** X10. Publishing back what read-states reported is accepted and changes
    nothing: in every reachable state, posting the snapshot stored under a
    key answers "updated" and leaves the store exactly as it was. *)
Theorem republish_is_idempotent `{PyStr} `{Pydantic} (st : state)
    (k : string) (snap : pyval) :
  reachable st ->
  read_snapshot k st = Some snap ->
  fst (post_api_coords snap st) = JSON 200 (PDict [("status", PStr "updated")])
  /\ player_data (snd (post_api_coords snap st)) = player_data st.
Proof.
  intros Hreach Hk. rewrite read_snapshot_lookup in Hk.
  destruct (reachable_store_wf st Hreach k snap Hk) as (info & -> & <-).
  unfold post_api_coords, with_body. rewrite PlayerInfo_roundtrip.
  split; [reflexivity|]. simpl. by apply insert_id.
Qed.

Lemma republish_is_idempotent_witness :
  let st := @run ascii_PyStr exact_types [POST_api_coords (PDict steve_minimal_body)]
              initial_state in
  @reachable ascii_PyStr exact_types st
  /\ read_snapshot "Steve" st = Some (PlayerInfo.dict steve_idle)
  /\ player_data (snd (post_api_coords (PlayerInfo.dict steve_idle) st))
     = player_data st.
Proof.
  intros st.
  assert (Hreach : @reachable ascii_PyStr exact_types st)
    by (by exists [POST_api_coords (PDict steve_minimal_body)]).
  assert (Hread : read_snapshot "Steve" st = Some (PlayerInfo.dict steve_idle))
    by apply lookup_insert_eq.
  split; [exact Hreach|]. split; [exact Hread|].
  exact (proj2 (@republish_is_idempotent ascii_PyStr exact_types st "Steve"
                  (PlayerInfo.dict steve_idle) Hreach Hread)).
Defined.

Lemma run_store_frame `{PyStr} `{Pydantic} (reqs : list request) (k : string) :
  (forall body info,
     POST_api_coords body ∈ reqs ->
     as_model PlayerInfo.parse body = Some info ->
     PlayerInfo.name info <> k) ->
  forall st, player_data (run reqs st) !! k = player_data st !! k.
Proof.
  induction reqs as [|r reqs IH]; intros Hno st; [done|].
  change (run (r :: reqs) st) with (run reqs (snd (handle r st))).
  rewrite IH.
  - destruct (handle_player_data r st)
      as [-> | (body & info & -> & Hparse & ->)]; [done|].
    apply lookup_insert_ne. apply (Hno body info); [|done].
    apply elem_of_cons. by left.
  - intros body info Hin. apply Hno. apply elem_of_cons. by right.
Qed.

(** X11. No request but a valid publish for key k touches the entry of k:
    over any sequence of requests without one, read-states reports for k
    what it reported before, so a key that was never published is absent
    and a published snapshot is neither deleted nor altered. *)
Theorem store_entry_frame `{PyStr} `{Pydantic} (reqs : list request) (k : string)
    (st : state) :
  (forall body info,
     POST_api_coords body ∈ reqs ->
     as_model PlayerInfo.parse body = Some info ->
     PlayerInfo.name info <> k) ->
  read_snapshot k (run reqs st) = read_snapshot k st
  /\ read_snapshot k (run reqs initial_state) = None.
Proof.
  intros Hno. rewrite !read_snapshot_lookup. split.
  - by apply run_store_frame.
  - rewrite run_store_frame by done. apply lookup_empty.
Qed.

(** X12. Last valid publish wins over any interleaving: after a valid
    publish for key k followed by any requests that contain no later valid
    publish for k, read-states reports exactly that snapshot for k, whatever
    came before. *)
Theorem last_valid_publish_wins `{PyStr} `{Pydantic} (before after : list request)
    (body : pyval) (info : PlayerInfo.t) (st : state) :
  as_model PlayerInfo.parse body = Some info ->
  (forall body' info',
     POST_api_coords body' ∈ after ->
     as_model PlayerInfo.parse body' = Some info' ->
     PlayerInfo.name info' <> PlayerInfo.name info) ->
  read_snapshot (PlayerInfo.name info)
    (run (before ++ POST_api_coords body :: after) st)
  = Some (PlayerInfo.dict info).
Proof.
  intros Hparse Hno. rewrite read_snapshot_lookup.
  rewrite run_app.
  change (run (POST_api_coords body :: after) (run before st))
    with (run after (snd (handle (POST_api_coords body) (run before st)))).
  rewrite run_store_frame by done.
  cbn [handle]. unfold post_api_coords, with_body. rewrite Hparse.
  apply lookup_insert_eq.
Qed.

Lemma store_entry_frame_witness :
  let reqs := [POST_api_command (Command.dict (Command.mk None "flame" []));
               POST_api_coords alex_body; GET_api_command] in
  read_snapshot "Steve" (@run ascii_PyStr exact_types reqs initial_state) = None.
Proof.
  intros reqs.
  apply (@store_entry_frame ascii_PyStr exact_types reqs "Steve" initial_state).
  intros body info Hin Hparse.
  apply elem_of_cons in Hin as [Heq|Hin]; [discriminate Heq|].
  apply elem_of_cons in Hin as [Heq|Hin].
  - injection Heq as ->. vm_compute in Hparse. injection Hparse as <-.
    discriminate.
  - apply elem_of_cons in Hin as [Heq|Hin]; [discriminate Heq|].
    by apply elem_of_nil in Hin.
Defined.

Lemma last_valid_publish_wins_witness :
  let before := [POST_api_coords (PDict steve_minimal_body)] in
  let after := [POST_api_coords alex_body; GET_api_coords] in
  read_snapshot "Steve"
    (@run ascii_PyStr exact_types
       (before ++ POST_api_coords (PlayerInfo.dict steve_mining) :: after)
       initial_state)
  = Some (PlayerInfo.dict steve_mining).
Proof.
  intros before after.
  apply (@last_valid_publish_wins ascii_PyStr exact_types before after
           (PlayerInfo.dict steve_mining) steve_mining initial_state).
  - reflexivity.
  - intros body info Hin Hparse.
    apply elem_of_cons in Hin as [Heq|Hin].
    + injection Heq as ->. vm_compute in Hparse. injection Hparse as <-.
      discriminate.
    + apply elem_of_cons in Hin as [Heq|Hin]; [discriminate Heq|].
      by apply elem_of_nil in Hin.
Defined.

(** ** What is printed *)


(** X14. The printed line does not tell a command without a player from one
    whose player is the empty string (both print "None"), while the queue
    does: the empty string is stored as it was sent. *)
Theorem empty_player_logged_as_None (name : string) (args : list string)
    (st : state) :
  let anon := Command.mk None name args in
  let blank := Command.mk (Some EmptyString) name args in
  stdout (snd (receive_command blank st))
  = stdout (snd (receive_command anon st))
  /\ get_field "player" (Command.dict blank) = Some (PStr EmptyString)
  /\ get_field "player" (Command.dict anon) = Some PNone
  /\ command_queue (snd (receive_command blank st))
     <> command_queue (snd (receive_command anon st)).
Proof.
  intros anon blank. repeat split.
  rewrite !receive_command_queue. intros Heq.
  apply app_inv_head in Heq. discriminate Heq.
Qed.

(** ** Rejected bodies *)

(** X15. A command body whose "command" or "args" is missing or [null],
    or whose "args" is a list with a [null] element, is rejected before the
    handler runs, whatever the library converts: nothing is queued, nothing
    is printed and the state is the one before the request. *)
Theorem rejected_command_leaves_state `{Pydantic} (d : pydict) (st : state) :
  missing_or_null "command" d
  \/ missing_or_null "args" d
  \/ (exists vs, dict_get "args" d = Some (PList vs) /\ PNone ∈ vs) ->
  post_api_command (PDict d) st = (RequestValidationError, st).
Proof.
  intros Hbad. unfold post_api_command. apply with_body_rejected.
  rewrite as_model_PDict. unfold Command.parse.
  destruct (optional as_str None "player" d); [|reflexivity].
  cbn [mbind option_bind].
  destruct Hbad as [Hcmd | Hargs].
  { by rewrite (required_absent as_str "command" d as_str_PNone Hcmd). }
  destruct (required as_str "command" d); [|reflexivity].
  cbn [mbind option_bind].
  destruct Hargs as [Hargs | (vs & Hargs & Hin)].
  - by rewrite (required_absent (as_list as_str) "args" d
                  (as_list_PNone _) Hargs).
  - unfold required. rewrite Hargs. cbn [mbind option_bind].
    unfold as_list. rewrite as_sequence_PList. cbn [mbind option_bind].
    destruct (mapM as_str vs) as [ss|] eqn:Hm; [|reflexivity].
    apply list_elem_of_lookup in Hin as (i & Hi).
    destruct (mapM_lookup _ _ _ _ _ Hm Hi) as (str & _ & Hstr).
    rewrite as_str_PNone in Hstr. discriminate Hstr.
Qed.

Lemma rejected_command_leaves_state_witness :
  let d := [("command", PStr "give"); ("args", PList [PStr "stone"; PNone])] in
  (exists vs, dict_get "args" d = Some (PList vs) /\ PNone ∈ vs)
  /\ post_api_command (PDict d) initial_state
     = (RequestValidationError, initial_state).
Proof.
  intros d.
  assert (Hbad : exists vs, dict_get "args" d = Some (PList vs) /\ PNone ∈ vs).
  { exists [PStr "stone"; PNone]. split; [reflexivity|].
    apply elem_of_cons. right. apply elem_of_cons. by left. }
  split; [exact Hbad|].
  apply (@rejected_command_leaves_state exact_types d initial_state).
  right. right. exact Hbad.
Defined.

(** X16. The inventory route is all or nothing at the endpoint.  A body
    that does not validate is rejected and a validated change whose action
    is neither "add" nor "remove" is refused with status 400, the state
    left as it was in both cases; otherwise exactly one command is appended:
    the dictionary with the change's player under "player", "inventory_edit"
    under "command" and the change's action and item as "args", which
    validates as that [Command].  A body with strings under "player",
    "action" and "item" validates to the change made of those strings. *)
Theorem inventory_route_all_or_nothing `{Pydantic} (body : pyval)
    (st : state) :
  match as_model InventoryChange.parse body with
  | None =>
      post_api_coords_inventory body st = (RequestValidationError, st)
  | Some change =>
      let action := InventoryChange.action change in
      let cmd :=
        PDict [("player", PStr (InventoryChange.player change));
               ("command", PStr "inventory_edit");
               ("args", PList [PStr action;
                               PStr (InventoryChange.item change)])] in
      (action ∉ ["add"; "remove"] ->
         post_api_coords_inventory body st
         = (JSON 400 (PDict [("error", PStr "Invalid action")]), st))
      /\ (action ∈ ["add"; "remove"] ->
          post_api_coords_inventory body st
          = (JSON 200 (PDict [("status", PStr "queued"); ("command", cmd)]),
             append_command cmd st)
          /\ as_model Command.parse cmd
             = Some (Command.mk (Some (InventoryChange.player change))
                       "inventory_edit"
                       [action; InventoryChange.item change]))
  end
  /\ (forall d p a i,
        body = PDict d ->
        dict_get "player" d = Some (PStr p) ->
        dict_get "action" d = Some (PStr a) ->
        dict_get "item" d = Some (PStr i) ->
        as_model InventoryChange.parse body
        = Some (InventoryChange.mk p a i)).
Proof.
  split.
  - unfold post_api_coords_inventory, with_body.
    destruct (as_model InventoryChange.parse body) as [change|];
      [|reflexivity].
    cbv zeta. unfold change_inventory. split.
    + intros Hnot. by rewrite bool_decide_eq_false_2.
    + intros Hin. rewrite bool_decide_eq_true_2 by done.
      split; [reflexivity|].
      apply (Command_roundtrip
               (Command.mk (Some (InventoryChange.player change))
                  "inventory_edit"
                  [InventoryChange.action change;
                   InventoryChange.item change])).
  - intros d p a i -> Hp Ha Hi. rewrite as_model_PDict.
    unfold InventoryChange.parse, required.
    rewrite Hp, Ha, Hi. cbn [mbind option_bind].
    rewrite !as_str_PStr. reflexivity.
Qed.

Lemma inventory_route_all_or_nothing_witness :
  let body := PDict [("player", PStr "Alice"); ("action", PStr "remove");
                     ("item", PStr "stone")] in
  let cmd := PDict [("player", PStr "Alice");
                    ("command", PStr "inventory_edit");
                    ("args", PList [PStr "remove"; PStr "stone"])] in
  post_api_coords_inventory body initial_state
  = (JSON 200 (PDict [("status", PStr "queued"); ("command", cmd)]),
     append_command cmd initial_state).
Proof.
  intros body cmd.
  pose proof (proj1 (@inventory_route_all_or_nothing exact_types body
                       initial_state)) as Hroute.
  cbv zeta in Hroute. cbn [as_model] in Hroute.
  apply (proj2 Hroute). apply elem_of_cons. right. apply elem_of_cons. by left.
Defined.

(** ** Nulls and unknown keys *)

(** X17. An optional field of a snapshot sent as an explicit [null] reads
    back absent ([None]), whatever its declared default: a [null]
    currentAction is stored as [None], not as "idle", and a [null]
    collection as [None], not as the empty list. *)
Theorem explicit_null_reads_back_None `{Pydantic} (d : pydict) (info : PlayerInfo.t)
    (st : state) :
  PlayerInfo.parse d = Some info ->
  let readback k :=
    read_snapshot (PlayerInfo.name info)
      (snd (post_api_coords (PDict d) st)) ≫= get_field k in
  (dict_get "inventory" d = Some PNone -> readback "inventory" = Some PNone)
  /\ (dict_get "armor" d = Some PNone -> readback "armor" = Some PNone)
  /\ (dict_get "offhand" d = Some PNone -> readback "offhand" = Some PNone)
  /\ (dict_get "enderChest" d = Some PNone ->
        readback "enderChest" = Some PNone)
  /\ (dict_get "status" d = Some PNone -> readback "status" = Some PNone)
  /\ (dict_get "world" d = Some PNone -> readback "world" = Some PNone)
  /\ (dict_get "nearbyEntities" d = Some PNone ->
        readback "nearbyEntities" = Some PNone)
  /\ (dict_get "currentAction" d = Some PNone ->
        readback "currentAction" = Some PNone)
  /\ (dict_get "heldItem" d = Some PNone -> readback "heldItem" = Some PNone).
Proof.
  intros Hparse readback. subst readback. cbv beta.
  rewrite (publish_then_read d info st Hparse).
  unfold PlayerInfo.parse in Hparse.
  bind_inv Hparse. injection Hparse as <-. cbn.
  repeat split; intros Hk.
  - nulled E1 Hk.
  - nulled E2 Hk.
  - nulled E3 Hk.
  - nulled E4 Hk.
  - nulled E5 Hk.
  - nulled E6 Hk.
  - nulled E7 Hk.
  - nulled E8 Hk.
  - nulled E9 Hk.
Qed.

Lemma explicit_null_reads_back_None_witness :
  let st := snd (post_api_coords (PDict steve_null_action_body)
                   initial_state) in
  dict_get "currentAction" steve_null_action_body = Some PNone
  /\ (read_snapshot "Steve" st ≫= get_field "currentAction") = Some PNone.
Proof.
  intros st. split; [reflexivity|].
  destruct (@explicit_null_reads_back_None exact_types
              steve_null_action_body
              (PlayerInfo.mk "Steve" origin (Some []) None None (Some [])
                 None None (Some []) None None)
              initial_state eq_refl)
    as (_ & _ & _ & _ & _ & _ & _ & Haction & _).
  exact (Haction eq_refl).
Defined.

(** X18. Keys of a snapshot body that are not fields of [PlayerInfo] are
    ignored: with or without such a key the body validates to the same
    model, the response is the same and the same snapshot is stored, so an
    unknown key is neither rejected nor kept. *)
Theorem unknown_keys_ignored `{Pydantic} (k : string) (v : pyval) (d : pydict)
    (st : state) :
  k ∉ PlayerInfo_fields ->
  PlayerInfo.parse ((k, v) :: d) = PlayerInfo.parse d
  /\ post_api_coords (PDict ((k, v) :: d)) st = post_api_coords (PDict d) st.
Proof.
  intros Hk.
  assert (Hget : forall key, key ∈ PlayerInfo_fields ->
            dict_get key ((k, v) :: d) = dict_get key d).
  { intros key Hkey. cbn [dict_get].
    destruct (String.eqb key k) eqn:Heq; [|reflexivity].
    apply String.eqb_eq in Heq. by subst key. }
  assert (Hparse : PlayerInfo.parse ((k, v) :: d) = PlayerInfo.parse d).
  { unfold PlayerInfo.parse, required, optional, PlayerInfo_fields in *.
    rewrite !Hget by set_solver. reflexivity. }
  split; [exact Hparse|].
  unfold post_api_coords, with_body. by rewrite !as_model_PDict, Hparse.
Qed.

Lemma unknown_keys_ignored_witness :
("uuid" ∉ PlayerInfo_fields)
  /\ post_api_coords (PDict (("uuid", PStr "0-0") :: steve_minimal_body))
       initial_state
     = post_api_coords (PDict steve_minimal_body) initial_state.
Proof.
  assert (Hk : "uuid" ∉ PlayerInfo_fields).
  { unfold PlayerInfo_fields. intros Hin.
    repeat (apply elem_of_cons in Hin as [Heq|Hin]; [discriminate Heq|]).
    by apply elem_of_nil in Hin. }
  split; [exact Hk|].
  exact (proj2 (@unknown_keys_ignored exact_types "uuid" (PStr "0-0")
                  steve_minimal_body initial_state Hk)).
Defined.

